(** * Credit oracle: scoring engine and score-update coordinator

    A shallow embedding of the oracle server of the private-credit
    repository (config.ts, scanner.ts and the oracle module that holds
    [CreditOracle] and [batchUpdateScores]), with the properties of its
    specification stated over it.

    Numbers.  A TypeScript [number] is an IEEE binary64 value.  The score,
    the weights, the thresholds and the two counters of a snapshot are
    integers far below 2^53, where binary64 addition, comparison, [Math.min]
    and [Math.max] are exact, so they are modelled as [Z].  The only
    computation of the program that leaves the integers is
    [Math.floor(SCORING.weights.perfectRepayment * 0.7)] (and [* 0.4]); it is
    modelled on binary64 itself, with the primitive floats of Rocq.

    Strings.  [repaymentHistory] is a string at run time (the union type of
    scanner.ts is erased), compared with [===]; it is modelled as [string]
    and compared with [String.eqb]. *)

From Stdlib Require Import ZArith Lia Bool String Ascii List.
From Stdlib Require Import PrimFloat SpecFloat FloatOps.
From Stdlib Require Uint63.
Import ListNotations.

Set Warnings "-inexact-float".

Local Open Scope string_scope.
Local Open Scope list_scope.
Local Open Scope Z_scope.

(** JavaScript's strict equality, on strings. *)
Notation "a === b" := (String.eqb a b) (at level 70, no associativity).

(** ** config.ts *)

Module SCORING.
Definition minScore : Z := 300.
Definition maxScore : Z := 850.
Definition baseScore : Z := 500.

Module weights.
Definition hasLendingActivity : Z := 100.
Definition neverLiquidated : Z := 50.
Definition accountAge : Z := 100.
Definition multiProtocol : Z := 50.
Definition perfectRepayment : Z := 150.
End weights.

Module thresholds.
Definition accountAgeMonths : Z := 6.
Definition minProtocols : Z := 2.
End thresholds.
End SCORING.

(** ** scanner.ts: the activity snapshot *)

Record WalletActivity : Type := mkWalletActivity {
  address : string;
  hasLendingActivity : bool;
  neverLiquidated : bool;
  accountAgeMonths : Z;
  protocolCount : Z;
  repaymentHistory : string;
  totalBorrowedUSD : Z;
  totalRepaidUSD : Z
}.

(** The five values of the declared type of [repaymentHistory]:
    ["none" | "poor" | "average" | "good" | "strong"]. *)
Definition repaymentHistory_values : list string :=
  ["none"; "poor"; "average"; "good"; "strong"].

Definition is_repaymentHistory (r : string) : bool :=
  existsb (String.eqb r) repaymentHistory_values.

(** A valid snapshot in the sense of the data model: the two counters are
    non-negative integers and [repaymentHistory] is one of the five enum
    values; the booleans are arbitrary. *)
Definition valid_snapshot (a : WalletActivity) : Prop :=
  0 <= accountAgeMonths a /\ 0 <= protocolCount a /\
  is_repaymentHistory (repaymentHistory a) = true.

(** The ordinal position of a repayment tier, none/poor < average < good <
    strong, as the data model orders the enum. *)
Definition tier_rank (r : string) : option Z :=
  if r === "none" then Some 0
  else if r === "poor" then Some 0
  else if r === "average" then Some 1
  else if r === "good" then Some 2
  else if r === "strong" then Some 3
  else None.

(** [address.slice(-1)]: the last character, or the empty string. *)
Fixpoint slice_last (s : string) : string :=
  match s with
  | EmptyString => EmptyString
  | String c EmptyString => String c EmptyString
  | String _ s' => slice_last s'
  end.

(** [toLowerCase] on an ASCII character.  A string is modelled by its
    bytes: this and [charCodeAt0] below are what JavaScript computes when
    the last character of the address is ASCII, as it is in every address
    that [ethers.isAddress] accepts.  For another last character
    JavaScript lower-cases by the Unicode tables and reads a UTF-16 unit,
    and the profile chosen may differ from the one chosen here. *)
Definition toLowerCase_ascii (c : ascii) : ascii :=
  let n := N_of_ascii c in
  if ((65 <=? n) && (n <=? 90))%N then ascii_of_N (n + 32) else c.

Fixpoint toLowerCase (s : string) : string :=
  match s with
  | EmptyString => EmptyString
  | String c s' => String (toLowerCase_ascii c) (toLowerCase s')
  end.

(** [s.charCodeAt(0)]; [None] stands for the [NaN] of the empty string. *)
Definition charCodeAt0 (s : string) : option Z :=
  match s with
  | EmptyString => None
  | String c _ => Some (Z.of_N (N_of_ascii c))
  end.

(** [generateMockData]: the profile is chosen by the code of the last
    character modulo 4; [NaN % 4] is [NaN] and falls to [default]. *)
Definition generateMockData (address : string) : WalletActivity :=
  let lastChar := toLowerCase (slice_last address) in
  let charCode := charCodeAt0 lastChar in
  let profileType := option_map (fun c => c mod 4) charCode in
  match profileType with
  | Some 0 =>
      mkWalletActivity address true true 12 3 "strong" 50000 50000
  | Some 1 =>
      mkWalletActivity address true true 8 2 "good" 25000 25000
  | Some 2 =>
      mkWalletActivity address true true 4 1 "average" 10000 9500
  | _ =>
      mkWalletActivity address false true 1 0 "none" 0 0
  end.

(** ** Binary64 arithmetic used by the scoring function *)

(** The binary64 value of a small non-negative integer. *)
Definition number_of_Z (z : Z) : float := of_uint63 (Uint63.of_Z z).

(** [Math.floor] on a finite binary64 value, as an integer.  The argument
    in this program is a product of two finite constants; [NaN] and the
    infinities, for which [Math.floor] returns its argument, do not arise
    and are sent to 0. *)
Definition Math_floor (x : float) : Z :=
  match Prim2SF x with
  | S754_finite s m e =>
      let n := if s then Z.neg m else Z.pos m in
      if 0 <=? e then n * 2 ^ e else n / 2 ^ (- e)
  | _ => 0
  end.

(** ** The scoring function *)

(** Lines 103-113: the [if / else if / else if] chain on
    [activity.repaymentHistory], as the amount it adds to [score]. *)
Definition repaymentBonus (r : string) : Z :=
  if r === "perfect" then
    SCORING.weights.perfectRepayment
  else if r === "good" then
    Math_floor (number_of_Z SCORING.weights.perfectRepayment * 0.7)%float
  else if r === "average" then
    Math_floor (number_of_Z SCORING.weights.perfectRepayment * 0.4)%float
  else 0.

(** Lines 77-113: the value of [score] just before the two clamps. *)
Definition preClampScore (activity : WalletActivity) : Z :=
  let score := SCORING.baseScore in
  let score :=
    if hasLendingActivity activity
    then score + SCORING.weights.hasLendingActivity else score in
  let score :=
    if neverLiquidated activity
    then score + SCORING.weights.neverLiquidated else score in
  let score :=
    if accountAgeMonths activity >=? SCORING.thresholds.accountAgeMonths
    then score + SCORING.weights.accountAge else score in
  let score :=
    if protocolCount activity >=? SCORING.thresholds.minProtocols
    then score + SCORING.weights.multiProtocol else score in
  let score := score + repaymentBonus (repaymentHistory activity) in
  score.

(** [calculateCreditScore].  Its [console.log] lines only print and are
    left out; nothing in the method can throw. *)
Definition calculateCreditScore (activity : WalletActivity) : Z :=
  let score := preClampScore activity in
  let score := Z.min score SCORING.maxScore in
  let score := Z.max score SCORING.minScore in
  score.

(** ** Effects: thrown values, console lines, the event trace *)

(** What a [throw] carries, as far as [error.message] can tell: an object
    with a message (every [Error]), [null] or [undefined], or any other
    value, on which [.message] reads [undefined]. *)
Inductive Thrown : Type :=
| ErrorObject (message : string)
| Nullish
| OtherValue.

(** One constructor per [console.log] / [console.error] statement, with
    the values it interpolates. *)
Inductive ConsoleLine : Type :=
| LogProcessing (userAddress : string)
| LogCalculatedScore (score : Z)
| LogTransactionSent (hash : string)
| LogWaitingForConfirmation
| LogScoreUpdated (blockNumber : Z)
| ErrUpdatingCreditScore (message : option string)
| ErrCheckingScoreExistence (error : Thrown)
| LogScanning (address : string)
| LogScanComplete (activity : WalletActivity)
| LogBatchUpdating (length : nat)
| ErrFailedToUpdate (address : string) (message : option string)
| LogBatchComplete.

(** What the process does to the outside, in the order it does it. *)
Inductive Event : Type :=
| Console (line : ConsoleLine)
| ScanWalletActivity (address : string)
| RegistryUpdateScore (user : string) (plaintextScore : Z)
| TxWait (hash : string)
| RegistryHasScore (user : string)
| SetTimeout (ms : Z).

Definition Trace : Type := list Event.

(** The activity fetch and the three remote operations are the calls that
    leave the process. *)
Definition is_network_call (e : Event) : bool :=
  match e with
  | ScanWalletActivity _ | RegistryUpdateScore _ _
  | TxWait _ | RegistryHasScore _ => true
  | Console _ | SetTimeout _ => false
  end.

(** The first statement of [updateCreditScore] prints the address it was
    called with: these lines of a trace are the updates attempted. *)
Fixpoint attempts (t : Trace) : list string :=
  match t with
  | [] => []
  | Console (LogProcessing a) :: t' => a :: attempts t'
  | _ :: t' => attempts t'
  end.

(** A computation appends to the trace and either throws or returns; an
    [await] on a rejected promise is a [throw] at that point. *)
Definition M (A : Type) : Type := Trace -> Trace * (Thrown + A).

Definition ret {A : Type} (a : A) : M A := fun t => (t, inr a).

Definition throw {A : Type} (e : Thrown) : M A := fun t => (t, inl e).

Definition bind {A B : Type} (m : M A) (k : A -> M B) : M B :=
  fun t =>
    match m t with
    | (t', inr a) => k a t'
    | (t', inl e) => (t', inl e)
    end.

Definition try_catch {A : Type} (body : M A) (handler : Thrown -> M A) : M A :=
  fun t =>
    match body t with
    | (t', inr a) => (t', inr a)
    | (t', inl e) => handler e t'
    end.

Definition emit (e : Event) : M unit := fun t => (t ++ [e], inr tt).

Declare Scope oracle_scope.
Delimit Scope oracle_scope with oracle.
Notation "x <- m ;; k" := (bind m (fun x => k))
  (at level 61, m at next level, right associativity) : oracle_scope.
Notation "m ;; k" := (bind m (fun _ => k))
  (at level 61, right associativity) : oracle_scope.
Local Open Scope oracle_scope.

Definition console_log (l : ConsoleLine) : M unit := emit (Console l).
Definition console_error (l : ConsoleLine) : M unit := emit (Console l).

(** [error.message] in a [catch (error: any)]: reading a property of
    [null] or [undefined] throws a [TypeError]. *)
Definition TypeError_message : Thrown :=
  ErrorObject "Cannot read properties of undefined (reading 'message')".

Definition error_message (error : Thrown) : M (option string) :=
  match error with
  | ErrorObject m => ret (Some m)
  | Nullish => throw TypeError_message
  | OtherValue => ret None
  end.

(** [await new Promise(resolve => setTimeout(resolve, ms))]. *)
Definition sleep (ms : Z) : M unit := emit (SetTimeout ms).

(** [scanWalletActivity]: the activity fetch.  In this repository it
    answers from [generateMockData] and cannot fail. *)
Definition scanWalletActivity (address : string) : M WalletActivity :=
  emit (ScanWalletActivity address) ;;
  console_log (LogScanning address) ;;
  let mockData := generateMockData address in
  console_log (LogScanComplete mockData) ;;
  ret mockData.

(** ** The oracle *)

(** A sent transaction and its receipt, as far as the code reads them. *)
Record TransactionResponse : Type := mkTx { tx_hash : string }.
Record TransactionReceipt : Type :=
  mkReceipt { blockNumber : Z; receipt_hash : string }.

(** The value [updateCreditScore] resolves to. *)
Record UpdateResult : Type := mkResult { score : Z; txHash : string }.

Section CreditOracle.

(** The ethers library and the remote registry are outside the
    repository.  Each remote operation either rejects or resolves, and
    its answer may depend on everything that happened before it (the
    trace at the call), so any sequence of answers is some instance.
    A call that never settles is not an answer of this section: the
    module [Pending] below adds it, and this section is its restriction
    to networks whose calls all settle ([settled_updateCreditScore],
    [settled_batchUpdateScores]). *)
Variable isAddress : string -> bool.
Variable registry_updateScore :
  Trace -> string -> Z -> Thrown + TransactionResponse.
Variable transaction_wait :
  Trace -> TransactionResponse -> Thrown + TransactionReceipt.
Variable registry_hasScore : Trace -> string -> Thrown + bool.

Definition creditRegistry_updateScore (user : string) (plaintextScore : Z)
  : M TransactionResponse :=
  fun t =>
    (t ++ [RegistryUpdateScore user plaintextScore],
     registry_updateScore t user plaintextScore).

Definition tx_wait (tx : TransactionResponse) : M TransactionReceipt :=
  fun t => (t ++ [TxWait (tx_hash tx)], transaction_wait t tx).

Definition creditRegistry_hasScore (user : string) : M bool :=
  fun t => (t ++ [RegistryHasScore user], registry_hasScore t user).

(** [CreditOracle.updateCreditScore]. *)
Definition updateCreditScore (userAddress : string) : M UpdateResult :=
  try_catch
    (console_log (LogProcessing userAddress) ;;
     (if negb (isAddress userAddress)
      then throw (ErrorObject "Invalid Ethereum address")
      else ret tt) ;;
     activity <- scanWalletActivity userAddress ;;
     let score := calculateCreditScore activity in
     console_log (LogCalculatedScore score) ;;
     tx <- creditRegistry_updateScore userAddress score ;;
     console_log (LogTransactionSent (tx_hash tx)) ;;
     console_log LogWaitingForConfirmation ;;
     receipt <- tx_wait tx ;;
     console_log (LogScoreUpdated (blockNumber receipt)) ;;
     ret (mkResult score (receipt_hash receipt)))
    (fun error =>
       message <- error_message error ;;
       console_error (ErrUpdatingCreditScore message) ;;
       throw error).

(** [CreditOracle.hasScore]. *)
Definition hasScore (userAddress : string) : M bool :=
  try_catch
    (creditRegistry_hasScore userAddress)
    (fun error =>
       console_error (ErrCheckingScoreExistence error) ;;
       ret false).

(** The [for (const address of addresses)] loop of
    [batchUpdateScores]. *)
Fixpoint batch_loop (addresses : list string) : M unit :=
  match addresses with
  | [] => ret tt
  | address :: rest =>
      try_catch
        (updateCreditScore address ;;
         sleep 2000)
        (fun error =>
           message <- error_message error ;;
           console_error (ErrFailedToUpdate address message)) ;;
      batch_loop rest
  end.

(** [batchUpdateScores]. *)
Definition batchUpdateScores (addresses : list string) : M unit :=
  console_log (LogBatchUpdating (List.length addresses)) ;;
  batch_loop addresses ;;
  console_log LogBatchComplete.

End CreditOracle.

(** ** Concrete snapshots and networks *)

(** The snapshots of the specification's concrete cases. *)
Definition snapshot_strong : WalletActivity :=
  mkWalletActivity "0x0" true true 12 3 "strong" 50000 50000.
Definition snapshot_good : WalletActivity :=
  mkWalletActivity "0x1" true true 8 2 "good" 25000 25000.
Definition snapshot_average : WalletActivity :=
  mkWalletActivity "0x2" true true 4 1 "average" 10000 9500.
Definition snapshot_none : WalletActivity :=
  mkWalletActivity "0x3" false true 1 0 "none" 0 0.

(** The same snapshot with another repayment tier. *)
Definition with_repaymentHistory (r : string) (a : WalletActivity)
  : WalletActivity :=
  mkWalletActivity (address a) (hasLendingActivity a) (neverLiquidated a)
    (accountAgeMonths a) (protocolCount a) r
    (totalBorrowedUSD a) (totalRepaidUSD a).

(** The sum of the base score and the four bonuses that do not depend on
    the repayment tier. *)
Definition independentBonuses (a : WalletActivity) : Z :=
  preClampScore (with_repaymentHistory "none" a).

(** A stand-in for [ethers.isAddress]: [0x] followed by forty more
    characters. *)
Definition isAddress_0x40 (s : string) : bool :=
  String.prefix "0x" s && (String.length s =? 42)%nat.

(** A network on which every transaction is sent and mined. *)
Definition mined_updateScore (t : Trace) (user : string) (plaintextScore : Z)
  : Thrown + TransactionResponse := inr (mkTx "0xfeed").
Definition mined_wait (t : Trace) (tx : TransactionResponse)
  : Thrown + TransactionReceipt := inr (mkReceipt 7 (tx_hash tx)).

(** A network on which every submission is rejected. *)
Definition rejected_updateScore (t : Trace) (user : string) (plaintextScore : Z)
  : Thrown + TransactionResponse := inl (ErrorObject "could not send").

(** A registry whose [hasScore] query rejects with [undefined]. *)
Definition rejected_hasScore (t : Trace) (user : string) : Thrown + bool :=
  inl Nullish.

Definition address_profile0 : string :=
  "0x52908400098527886E0F7030069857D2E4169EE0".
Definition address_profile2 : string :=
  "0x8617E340B3D01FA5F11F306F4090FD50E238070B".

(** The same snapshot under another address. *)
Definition with_address (addr : string) (a : WalletActivity) : WalletActivity :=
  mkWalletActivity addr (hasLendingActivity a) (neverLiquidated a)
    (accountAgeMonths a) (protocolCount a) (repaymentHistory a)
    (totalBorrowedUSD a) (totalRepaidUSD a).

(** ** What a run of the oracle leaves in the trace *)

(** The scores sent to the registry, with the address they are for. *)
Fixpoint submissions (t : Trace) : list (string * Z) :=
  match t with
  | [] => []
  | RegistryUpdateScore user s :: t' => (user, s) :: submissions t'
  | _ :: t' => submissions t'
  end.

Definition is_pause (e : Event) : bool :=
  match e with SetTimeout _ => true | _ => false end.

Definition is_confirmation (e : Event) : bool :=
  match e with Console (LogScoreUpdated _) => true | _ => false end.

(** The [catch] of [updateCreditScore] on a thrown value: the line it
    prints, and what leaves the method.  On [null] or [undefined] the read
    of [error.message] throws before anything is printed. *)
Definition handler_lines (error : Thrown) : Trace :=
  match error with
  | ErrorObject m => [Console (ErrUpdatingCreditScore (Some m))]
  | Nullish => []
  | OtherValue => [Console (ErrUpdatingCreditScore None)]
  end.

Definition rethrown (error : Thrown) : Thrown :=
  match error with
  | Nullish => TypeError_message
  | _ => error
  end.

(** ** config.ts: the environment *)

(** [process.env]: a variable is absent or holds a string. *)
Definition Env : Type := string -> option string.

(** [process.env.X || d]: the default replaces an absent or empty value. *)
Definition env_or (v : option string) (d : string) : string :=
  match v with
  | Some s => if s === "" then d else s
  | None => d
  end.

(** [s || d] on a string. *)
Definition string_or (s d : string) : string := if s === "" then d else s.

Module NETWORK.
Definition name : string := "sepolia".
Definition rpcUrl (env : Env) : string :=
  env_or (env "RPC_URL") "https://rpc.sepolia.org".
End NETWORK.

Module CONTRACTS.
Definition creditRegistry (env : Env) : string :=
  env_or (env "CREDIT_REGISTRY_ADDRESS") "".
Definition lendingPool (env : Env) : string :=
  env_or (env "LENDING_POOL_ADDRESS") "".
End CONTRACTS.

Module ORACLE.
Definition privateKey (env : Env) : string :=
  env_or (env "ORACLE_PRIVATE_KEY") "".
End ORACLE.

(** ** The server: events, responses, requests *)

(** The console lines of config.ts, of [verifyOracleAuthorization] and of
    the route handlers. *)
Inductive AppLine : Type :=
| LogConfigurationValidated
| LogNetwork (name : string)
| LogCreditRegistry (shown : string)
| LogLendingPool (shown : string)
| LogOracleAuthorized
| ErrOracleNotAuthorized (expected : string)
| ErrContractHas (authorizedOracle : string)
| ErrVerifyingAuthorization (error : Thrown)
| ErrGettingOracleStatus (error : Thrown)
| LogReceivedRequest (address : string)
| LogScoreAlreadyExists
| ErrInScoreUpdate (error : Thrown)
| ErrCheckingScore (error : Thrown)
| LogBatchRequested (count : nat)
| ErrStartingBatch (error : Thrown)
| ErrManualTrigger (error : Thrown).

(** The events of the whole process: those of the oracle, the console
    lines above, the two remaining remote queries, and the start of a
    batch that the handler does not await. *)
Inductive AppEvent : Type :=
| OracleEvent (e : Event)
| AppConsole (line : AppLine)
| RegistryOracle
| ProviderGetBalance (address : string)
| StartBatch (addresses : list string).

Definition AppTrace : Type := list AppEvent.

Fixpoint oracle_events (h : AppTrace) : Trace :=
  match h with
  | [] => []
  | OracleEvent e :: h' => e :: oracle_events h'
  | _ :: h' => oracle_events h'
  end.

Fixpoint started_batches (h : AppTrace) : list (list string) :=
  match h with
  | [] => []
  | StartBatch l :: h' => l :: started_batches h'
  | _ :: h' => started_batches h'
  end.

(** The JSON bodies the handlers send; the [timestamp] fields, read from
    the clock, are left out. *)
Inductive ResponseBody : Type :=
| ErrorJson (error : option string)
| StatusJson (balance : string) (isAuthorized : bool)
| ScoreJson (address : string) (result_score : Z) (result_txHash : string)
| FailureJson (error : option string)
| ExistsJson (address : string) (exists_ : bool)
| BatchStartedJson (count : nat)
| TriggerJson (result : UpdateResult).

Record Response : Type := mkResponse { status : Z; body : ResponseBody }.

(** The [addresses] field of a batch request: some value that is not an
    array, or an array.  Its elements are taken to be strings; any other
    element fails [ethers.isAddress] as a string that is no address
    does. *)
Inductive AddressesField : Type :=
| NotArray
| ArrayOf (elements : list string).

Definition Array_isArray (v : AddressesField) : bool :=
  match v with NotArray => false | ArrayOf _ => true end.

Definition array_elements (v : AddressesField) : list string :=
  match v with NotArray => [] | ArrayOf l => l end.

(** [!address] on the [address] field of a trigger request. *)
Definition falsy (v : option string) : bool :=
  match v with
  | None => true
  | Some s => s === ""
  end.

Definition field_value (v : option string) : string :=
  match v with Some s => s | None => "" end.

(** The routes of index.ts, in the order in which they are registered.
    Express tries them in that order and runs the first whose method and
    path match; a handler that answers without calling [next] ends the
    dispatch.  A path is given by its segments; a literal segment is
    compared without regard to case (the default of Express) and a
    parameter matches any one non-empty segment. *)
Inductive Method : Type := GET | POST.

Inductive PathSegment : Type :=
| Literal (s : string)
| Param (name : string).

Inductive Route : Type :=
| Health
| OracleStatus
| ScoreByAddress
| ScoreExists
| ScoreBatch
| Trigger.

Definition routes : list (Method * list PathSegment * Route) :=
  [(GET, [Literal "health"], Health);
   (GET, [Literal "api"; Literal "oracle"; Literal "status"], OracleStatus);
   (POST, [Literal "api"; Literal "score"; Param "address"],
    ScoreByAddress);
   (GET, [Literal "api"; Literal "score"; Param "address";
          Literal "exists"], ScoreExists);
   (POST, [Literal "api"; Literal "score"; Literal "batch"], ScoreBatch);
   (POST, [Literal "api"; Literal "trigger"], Trigger)].

Definition method_eqb (m1 m2 : Method) : bool :=
  match m1, m2 with
  | GET, GET | POST, POST => true
  | _, _ => false
  end.

Definition segment_matches (p : PathSegment) (s : string) : bool :=
  match p with
  | Literal l => toLowerCase l === toLowerCase s
  | Param _ => negb (s === "")
  end.

Fixpoint path_matches (pattern : list PathSegment) (path : list string)
  : bool :=
  match pattern, path with
  | [], [] => true
  | p :: pattern', s :: path' =>
      segment_matches p s && path_matches pattern' path'
  | _, _ => false
  end.

(** The route that handles a request; [None] is the 404 handler. *)
Fixpoint dispatch_in (table : list (Method * list PathSegment * Route))
  (m : Method) (path : list string) : option Route :=
  match table with
  | [] => None
  | (m', pattern, route) :: table' =>
      if method_eqb m' m && path_matches pattern path then Some route
      else dispatch_in table' m path
  end.

Definition dispatch (m : Method) (path : list string) : option Route :=
  dispatch_in routes m path.

(** Computations of the server, on the trace of the whole process. *)
Definition App (A : Type) : Type := AppTrace -> AppTrace * (Thrown + A).

Definition app_ret {A : Type} (a : A) : App A := fun h => (h, inr a).

Definition app_throw {A : Type} (e : Thrown) : App A := fun h => (h, inl e).

Definition app_bind {A B : Type} (m : App A) (k : A -> App B) : App B :=
  fun h =>
    match m h with
    | (h', inr a) => k a h'
    | (h', inl e) => (h', inl e)
    end.

Definition app_try_catch {A : Type} (body : App A) (handler : Thrown -> App A)
  : App A :=
  fun h =>
    match body h with
    | (h', inr a) => (h', inr a)
    | (h', inl e) => handler e h'
    end.

Definition app_emit (e : AppEvent) : App unit := fun h => (h ++ [e], inr tt).

Definition app_console (l : AppLine) : App unit := app_emit (AppConsole l).

(** A method of the oracle run from the server: it sees the oracle's own
    events so far, and the events it adds are added to the trace. *)
Definition call_oracle {A : Type} (m : M A) : App A :=
  fun h =>
    let t := oracle_events h in
    let (t', r) := m t in
    (h ++ map OracleEvent (skipn (List.length t) t'), r).

Definition app_error_message (error : Thrown) : App (option string) :=
  match error with
  | ErrorObject m => app_ret (Some m)
  | Nullish => app_throw TypeError_message
  | OtherValue => app_ret None
  end.

Definition respond (status : Z) (body : ResponseBody) : App Response :=
  app_ret (mkResponse status body).

Declare Scope app_scope.
Delimit Scope app_scope with app.
Notation "x <- m ;; k" := (app_bind m (fun x => k))
  (at level 61, m at next level, right associativity) : app_scope.
Notation "m ;; k" := (app_bind m (fun _ => k))
  (at level 61, right associativity) : app_scope.
Local Open Scope app_scope.

(** [validateConfig] of config.ts. *)
Definition validateConfig (env : Env) : App unit :=
  let required :=
    [("ORACLE_PRIVATE_KEY", ORACLE.privateKey env);
     ("RPC_URL", NETWORK.rpcUrl env)] in
  let missing := filter (fun item => snd item === "") required in
  if (0 <? List.length missing)%nat then
    app_throw
      (ErrorObject
         ("Missing required environment variables: "
          ++ String.concat ", " (map fst missing))%string)
  else
    app_console LogConfigurationValidated ;;
    app_console (LogNetwork NETWORK.name) ;;
    app_console
      (LogCreditRegistry
         (string_or (CONTRACTS.creditRegistry env) "Not deployed yet")) ;;
    app_console
      (LogLendingPool
         (string_or (CONTRACTS.lendingPool env) "Not deployed yet")).

Section Server.

(** The network as in [CreditOracle], the two remaining remote queries,
    [ethers.formatEther], the address of the oracle's wallet, and whether
    the global [oracle] has been set. *)
Variable isAddress : string -> bool.
Variable registry_updateScore :
  Trace -> string -> Z -> Thrown + TransactionResponse.
Variable transaction_wait :
  Trace -> TransactionResponse -> Thrown + TransactionReceipt.
Variable registry_hasScore : Trace -> string -> Thrown + bool.
Variable registry_oracle : AppTrace -> Thrown + string.
Variable provider_getBalance : AppTrace -> string -> Thrown + Z.
Variable formatEther : Z -> string.
Variable wallet_address : string.
Variable oracle_ready : bool.

Definition creditRegistry_oracle : App string :=
  fun h => (h ++ [RegistryOracle], registry_oracle h).

Definition provider_getBalance_of (address : string) : App Z :=
  fun h => (h ++ [ProviderGetBalance address], provider_getBalance h address).

(** [CreditOracle.getOracleBalance]. *)
Definition getOracleBalance : App string :=
  balance <- provider_getBalance_of wallet_address ;;
  app_ret (formatEther balance).

(** [CreditOracle.verifyOracleAuthorization]. *)
Definition verifyOracleAuthorization : App bool :=
  app_try_catch
    (authorizedOracle <- creditRegistry_oracle ;;
     let isAuthorized :=
       toLowerCase authorizedOracle === toLowerCase wallet_address in
     (if isAuthorized then
        app_console LogOracleAuthorized
      else
        app_console (ErrOracleNotAuthorized wallet_address) ;;
        app_console (ErrContractHas authorizedOracle)) ;;
     app_ret isAuthorized)
    (fun error =>
       app_console (ErrVerifyingAuthorization error) ;;
       app_ret false).

Definition not_initialized : App Response :=
  respond 503 (ErrorJson (Some "Oracle not initialized")).

(** [GET /api/oracle/status]. *)
Definition get_oracle_status : App Response :=
  app_try_catch
    (if negb oracle_ready then not_initialized else
     balance <- getOracleBalance ;;
     isAuthorized <- verifyOracleAuthorization ;;
     respond 200 (StatusJson (balance ++ " ETH")%string isAuthorized))
    (fun error =>
       app_console (ErrGettingOracleStatus error) ;;
       message <- app_error_message error ;;
       respond 500 (ErrorJson message)).

(** [POST /api/score/:address]. *)
Definition post_score (address : string) : App Response :=
  app_try_catch
    (if negb oracle_ready then not_initialized else
     app_console (LogReceivedRequest address) ;;
     exists_ <- call_oracle (hasScore registry_hasScore address) ;;
     (if exists_ : bool then app_console LogScoreAlreadyExists
      else app_ret tt) ;;
     result <-
       call_oracle
         (updateCreditScore isAddress registry_updateScore transaction_wait
            address) ;;
     respond 200 (ScoreJson address (score result) (txHash result)))
    (fun error =>
       app_console (ErrInScoreUpdate error) ;;
       message <- app_error_message error ;;
       respond 500 (FailureJson message)).

(** [GET /api/score/:address/exists]. *)
Definition get_score_exists (address : string) : App Response :=
  app_try_catch
    (if negb oracle_ready then not_initialized else
     exists_ <- call_oracle (hasScore registry_hasScore address) ;;
     respond 200 (ExistsJson address exists_))
    (fun error =>
       app_console (ErrCheckingScore error) ;;
       message <- app_error_message error ;;
       respond 500 (ErrorJson message)).

(** [POST /api/score/batch].  [batchUpdateScores(oracle, addresses)] is
    called and not awaited: the handler records the start of the batch
    and answers; the batch itself is a run of [batchUpdateScores]. *)
Definition post_score_batch (addresses : AddressesField) : App Response :=
  app_try_catch
    (if negb oracle_ready then not_initialized else
     if negb (Array_isArray addresses)
        || (List.length (array_elements addresses) =? 0)%nat then
       respond 400 (ErrorJson (Some "Invalid addresses array"))
     else if (10 <? List.length (array_elements addresses))%nat then
       respond 400 (ErrorJson (Some "Maximum 10 addresses per batch"))
     else
       app_console
         (LogBatchRequested (List.length (array_elements addresses))) ;;
       app_emit (StartBatch (array_elements addresses)) ;;
       respond 200
         (BatchStartedJson (List.length (array_elements addresses))))
    (fun error =>
       app_console (ErrStartingBatch error) ;;
       message <- app_error_message error ;;
       respond 500 (ErrorJson message)).

(** [POST /api/trigger]. *)
Definition post_trigger (address : option string) : App Response :=
  app_try_catch
    (if negb oracle_ready then not_initialized else
     if falsy address then
       respond 400 (ErrorJson (Some "Address required in body"))
     else
       result <-
         call_oracle
           (updateCreditScore isAddress registry_updateScore transaction_wait
              (field_value address)) ;;
       respond 200 (TriggerJson result))
    (fun error =>
       app_console (ErrManualTrigger error) ;;
       message <- app_error_message error ;;
       respond 500 (ErrorJson message)).

End Server.

Local Close Scope app_scope.

(** An environment with a private key, and one without. *)
Definition env_with_key : Env :=
  fun k => if k === "ORACLE_PRIVATE_KEY" then Some "0xkey" else None.
Definition env_empty_key : Env :=
  fun k => if k === "ORACLE_PRIVATE_KEY" then Some "" else None.

(** A registry that has a score for every address. *)
Definition scored_hasScore (t : Trace) (user : string) : Thrown + bool :=
  inr true.


Definition eleven_addresses : list string :=
  List.repeat address_profile0 11.

(** A balance query that is rejected, and a stand-in for
    [ethers.formatEther]. *)
Definition rejected_getBalance (h : AppTrace) (address : string)
  : Thrown + Z := inl (ErrorObject "network down").
Definition formatEther_whole (wei : Z) : string :=
  if wei =? 0 then "0.0" else "1.0".

(** A registry whose authorized oracle is the first concrete address. *)
Definition resolved_oracle (h : AppTrace) : Thrown + string :=
  inr address_profile0.

(** ** Remote calls that never settle *)

(** An [await] on a promise that stays pending never returns, and
    [tx.wait()] is awaited with no timeout.  In this module a remote call
    answers [None] when it never settles, and a computation ends in [None]
    when it is suspended for ever at such a call: nothing after the
    [await] runs and no [catch] fires.  The section [CreditOracle] above is
    the restriction of this module to networks whose calls all settle. *)
Module Pending.

Definition MP (A : Type) : Type := Trace -> Trace * option (Thrown + A).

Definition ret {A : Type} (a : A) : MP A := fun t => (t, Some (inr a)).

Definition throw {A : Type} (e : Thrown) : MP A := fun t => (t, Some (inl e)).

Definition bind {A B : Type} (m : MP A) (k : A -> MP B) : MP B :=
  fun t =>
    match m t with
    | (t', Some (inr a)) => k a t'
    | (t', Some (inl e)) => (t', Some (inl e))
    | (t', None) => (t', None)
    end.

Definition try_catch {A : Type} (body : MP A) (handler : Thrown -> MP A)
  : MP A :=
  fun t =>
    match body t with
    | (t', Some (inr a)) => (t', Some (inr a))
    | (t', Some (inl e)) => handler e t'
    | (t', None) => (t', None)
    end.

(** A computation without remote calls always settles. *)
Definition settled {A : Type} (m : M A) : MP A :=
  fun t => let (t', r) := m t in (t', Some r).

Declare Scope pending_scope.
Delimit Scope pending_scope with pending.
Notation "x <- m ;; k" := (bind m (fun x => k))
  (at level 61, m at next level, right associativity) : pending_scope.
Notation "m ;; k" := (bind m (fun _ => k))
  (at level 61, right associativity) : pending_scope.
Local Open Scope pending_scope.

Section Oracle.

Variable isAddress : string -> bool.
Variable registry_updateScore :
  Trace -> string -> Z -> option (Thrown + TransactionResponse).
Variable transaction_wait :
  Trace -> TransactionResponse -> option (Thrown + TransactionReceipt).

Definition creditRegistry_updateScore (user : string) (plaintextScore : Z)
  : MP TransactionResponse :=
  fun t =>
    (t ++ [RegistryUpdateScore user plaintextScore],
     registry_updateScore t user plaintextScore).

Definition tx_wait (tx : TransactionResponse) : MP TransactionReceipt :=
  fun t => (t ++ [TxWait (tx_hash tx)], transaction_wait t tx).

(** [CreditOracle.updateCreditScore]. *)
Definition updateCreditScore (userAddress : string) : MP UpdateResult :=
  try_catch
    (settled (console_log (LogProcessing userAddress)) ;;
     (if negb (isAddress userAddress)
      then throw (ErrorObject "Invalid Ethereum address")
      else ret tt) ;;
     activity <- settled (scanWalletActivity userAddress) ;;
     let score := calculateCreditScore activity in
     settled (console_log (LogCalculatedScore score)) ;;
     tx <- creditRegistry_updateScore userAddress score ;;
     settled (console_log (LogTransactionSent (tx_hash tx))) ;;
     settled (console_log LogWaitingForConfirmation) ;;
     receipt <- tx_wait tx ;;
     settled (console_log (LogScoreUpdated (blockNumber receipt))) ;;
     ret (mkResult score (receipt_hash receipt)))
    (fun error =>
       message <- settled (error_message error) ;;
       settled (console_error (ErrUpdatingCreditScore message)) ;;
       throw error).

(** The [for (const address of addresses)] loop of
    [batchUpdateScores]. *)
Fixpoint batch_loop (addresses : list string) : MP unit :=
  match addresses with
  | [] => ret tt
  | address :: rest =>
      try_catch
        (updateCreditScore address ;;
         settled (sleep 2000))
        (fun error =>
           message <- settled (error_message error) ;;
           settled (console_error (ErrFailedToUpdate address message))) ;;
      batch_loop rest
  end.

(** [batchUpdateScores]. *)
Definition batchUpdateScores (addresses : list string) : MP unit :=
  settled (console_log (LogBatchUpdating (List.length addresses))) ;;
  batch_loop addresses ;;
  settled (console_log LogBatchComplete).

End Oracle.

Local Close Scope pending_scope.

End Pending.

(** The scores a batch owes to the registry: one for each address of the
    list that passes [isAddress], in the order of the list, the score of
    its scanned snapshot. *)
Definition scores_due (isAddress : string -> bool) (addresses : list string)
  : list (string * Z) :=
  map (fun a => (a, calculateCreditScore (generateMockData a)))
    (filter isAddress addresses).

(** Some remote call of the network never settles. *)
Definition some_call_pends
  (registry_updateScore :
     Trace -> string -> Z -> option (Thrown + TransactionResponse))
  (transaction_wait :
     Trace -> TransactionResponse -> option (Thrown + TransactionReceipt))
  : Prop :=
  (exists t0 user s, registry_updateScore t0 user s = None) \/
  (exists t0 tx, transaction_wait t0 tx = None).

(** The addresses whose failure the batch caught and printed. *)
Fixpoint reported_failures (t : Trace) : list string :=
  match t with
  | [] => []
  | Console (ErrFailedToUpdate a _) :: t' => a :: reported_failures t'
  | _ :: t' => reported_failures t'
  end.

(** A network on which every transaction is sent and none is ever mined,
    and the settled networks above with the answers of this module. *)
Definition sent_updateScore (t : Trace) (user : string) (plaintextScore : Z)
  : option (Thrown + TransactionResponse) := Some (inr (mkTx "0xfeed")).
Definition never_mined_wait (t : Trace) (tx : TransactionResponse)
  : option (Thrown + TransactionReceipt) := None.

(** * Properties of the scoring function *)

(** ** The binary64 products *)

Lemma floor_150_times_07 :
  Math_floor (number_of_Z SCORING.weights.perfectRepayment * 0.7)%float = 105.
Proof. vm_compute. reflexivity. Qed.

Lemma floor_150_times_04 :
  Math_floor (number_of_Z SCORING.weights.perfectRepayment * 0.4)%float = 60.
Proof. vm_compute. reflexivity. Qed.

(** The literal [0.7] denotes the binary64 value [m * 2^e] nearest to
    7/10, and the exact product with 150 lies strictly below 105: it is
    the rounding of the multiplication that makes the floor 105. *)
Lemma literal_07_is_below_seven_tenths :
  exists m e,
    Prim2SF 0.7%float = S754_finite false m e /\ e = -53 /\
    10 * Z.pos m < 7 * 2 ^ 53 /\
    7 * 2 ^ 53 - 10 * Z.pos m <= 5 /\
    (150 * Z.pos m) / 2 ^ 53 = 104.
Proof.
  eexists; eexists. split; [vm_compute; reflexivity|].
  repeat split; vm_compute; congruence.
Qed.

Lemma repaymentBonus_eq (r : string) :
  repaymentBonus r =
    if r === "perfect" then 150
    else if r === "good" then 105
    else if r === "average" then 60
    else 0.
Proof.
  unfold repaymentBonus.
  rewrite floor_150_times_07, floor_150_times_04. reflexivity.
Qed.

Lemma repaymentBonus_bounds (r : string) : 0 <= repaymentBonus r <= 150.
Proof.
  rewrite repaymentBonus_eq.
  destruct (r === "perfect"), (r === "good"), (r === "average"); lia.
Qed.

(** ** Unfolding the score *)

Ltac unfold_scoring :=
  cbv [calculateCreditScore preClampScore independentBonuses
       with_repaymentHistory
       address hasLendingActivity neverLiquidated accountAgeMonths
       protocolCount repaymentHistory totalBorrowedUSD totalRepaidUSD
       SCORING.minScore SCORING.maxScore SCORING.baseScore
       SCORING.weights.hasLendingActivity SCORING.weights.neverLiquidated
       SCORING.weights.accountAge SCORING.weights.multiProtocol
       SCORING.weights.perfectRepayment
       SCORING.thresholds.accountAgeMonths SCORING.thresholds.minProtocols] in *.

Ltac split_tests :=
  repeat match goal with
  | |- context [if ?b then _ else _] =>
      match b with
      | (?x >=? ?y) => rewrite (Z.geb_leb x y); destruct (Z.leb_spec y x)
      | _ => destruct b eqn:?
      end
  end.

Lemma preClampScore_split (a : WalletActivity) :
  preClampScore a = independentBonuses a + repaymentBonus (repaymentHistory a).
Proof.
  destruct a as [ad la nl age pc r tb tr]. unfold_scoring.
  replace (repaymentBonus "none") with 0 by reflexivity. lia.
Qed.

Lemma independentBonuses_bounds (a : WalletActivity) :
  500 <= independentBonuses a <= 800.
Proof.
  destruct a as [ad la nl age pc r tb tr]. unfold_scoring.
  replace (repaymentBonus "none") with 0 by reflexivity.
  split_tests; lia.
Qed.

Lemma preClampScore_bounds (a : WalletActivity) :
  500 <= preClampScore a <= 950.
Proof.
  rewrite preClampScore_split.
  pose proof (independentBonuses_bounds a).
  pose proof (repaymentBonus_bounds (repaymentHistory a)). lia.
Qed.

Lemma calculateCreditScore_bounds (a : WalletActivity) :
  500 <= calculateCreditScore a <= 850.
Proof.
  pose proof (preClampScore_bounds a).
  unfold calculateCreditScore, SCORING.maxScore, SCORING.minScore. lia.
Qed.

(** ** Concrete cases *)

(** C1 (code defect).  The claim gives the top tier ["strong"] the bonus
    150, so that the all-positive snapshot sums to 950 and scores 850.  The
    code tests [repaymentHistory === 'perfect'], a value the declared type
    does not have: ["strong"] matches no branch and adds nothing.  The
    all-positive snapshot, which [generateMockData] returns for an address
    ending in [0], sums to 800 and scores 800. *)
Theorem strong_snapshot_scores_800 :
  generateMockData "0x0" = snapshot_strong /\
  is_repaymentHistory "strong" = true /\
  is_repaymentHistory "perfect" = false /\
  repaymentBonus (repaymentHistory snapshot_strong) = 0 /\
  preClampScore snapshot_strong = 800 /\
  calculateCreditScore snapshot_strong = 800.
Proof. repeat split; vm_compute; reflexivity. Qed.

(** C5.  The good-tier snapshot sums to 905 and is clamped to 850, the
    average-tier snapshot scores 710 and the none-tier snapshot 550. *)
Theorem concrete_scores :
  preClampScore snapshot_good = 905 /\
  calculateCreditScore snapshot_good = 850 /\
  calculateCreditScore snapshot_average = 710 /\
  calculateCreditScore snapshot_none = 550.
Proof. repeat split; vm_compute; reflexivity. Qed.

(** The snapshots above are the ones the scanner produces. *)
Lemma generateMockData_profiles :
  generateMockData "0x1" = snapshot_good /\
  generateMockData "0x2" = snapshot_average /\
  generateMockData "0x3" = snapshot_none.
Proof. repeat split; reflexivity. Qed.

(** ** Range *)

(** C2.  For every valid snapshot (arbitrary booleans, non-negative
    counters, one of the five enum values) the score lies in [300, 850]. *)
Theorem score_in_range (a : WalletActivity) :
  valid_snapshot a ->
  SCORING.minScore <= calculateCreditScore a <= SCORING.maxScore.
Proof.
  intros _. pose proof (calculateCreditScore_bounds a).
  unfold SCORING.minScore, SCORING.maxScore. lia.
Qed.

Lemma score_in_range_witness :
  valid_snapshot snapshot_average /\
  SCORING.minScore <= calculateCreditScore snapshot_average <= SCORING.maxScore.
Proof.
  assert (H : valid_snapshot snapshot_average).
  { unfold valid_snapshot; simpl. repeat split; lia. }
  split; [exact H | exact (score_in_range snapshot_average H)].
Defined.

(** C10.  With non-negative counters the score is at least the base score
    500, so the lower clamp to [minScore] leaves the value unchanged. *)
Theorem score_at_least_base (a : WalletActivity) :
  0 <= accountAgeMonths a ->
  0 <= protocolCount a ->
  SCORING.baseScore <= calculateCreditScore a /\
  calculateCreditScore a = Z.min (preClampScore a) SCORING.maxScore.
Proof.
  intros _ _. pose proof (preClampScore_bounds a).
  unfold calculateCreditScore, SCORING.baseScore, SCORING.maxScore,
    SCORING.minScore. lia.
Qed.

Lemma score_at_least_base_witness :
  SCORING.baseScore <= calculateCreditScore snapshot_none /\
  calculateCreditScore snapshot_none =
    Z.min (preClampScore snapshot_none) SCORING.maxScore.
Proof.
  apply (score_at_least_base snapshot_none); simpl; lia.
Defined.

(** ** The repayment tiers *)

(** C4 (code defect).  The chain adds its amount once, on top of the
    bonuses that do not depend on the tier, and its branches exclude each
    other: 150 for the literal ['perfect'], 105 for ["good"], 60 for
    ["average"], nothing otherwise.  The top tier of the data model is
    ["strong"], which is none of the literals tested: its contribution is 0
    where the claim says 150. *)
Theorem repayment_bonus_table (a : WalletActivity) :
  preClampScore a = independentBonuses a + repaymentBonus (repaymentHistory a) /\
  repaymentBonus (repaymentHistory a) =
    (if repaymentHistory a === "perfect" then 150
     else if repaymentHistory a === "good" then 105
     else if repaymentHistory a === "average" then 60
     else 0) /\
  repaymentBonus "good" = 105 /\
  repaymentBonus "average" = 60 /\
  repaymentBonus "poor" = 0 /\
  repaymentBonus "none" = 0 /\
  repaymentBonus "strong" = 0.
Proof.
  split; [apply preClampScore_split|].
  split; [apply repaymentBonus_eq|].
  repeat split; vm_compute; reflexivity.
Qed.

(** C9 (code defect).  The tiers are not matched against the enum.  The
    chain rewards ['perfect'], which is no value of the declared type, with
    150: a snapshot with nothing else to its credit scores 650 instead of
    the base 500.  And it does not know the enum's own top value
    ["strong"], which adds nothing.  The claim says that tiers are matched
    exactly against the enum and that a value outside it adds nothing. *)
Theorem perfect_outside_enum_adds_150 :
  is_repaymentHistory "perfect" = false /\
  repaymentBonus "perfect" = 150 /\
  calculateCreditScore
    (mkWalletActivity "0x3" false false 0 0 "perfect" 0 0) = 650 /\
  calculateCreditScore
    (mkWalletActivity "0x3" false false 0 0 "none" 0 0) = 500 /\
  is_repaymentHistory "strong" = true /\
  repaymentBonus "strong" = 0.
Proof. repeat split; vm_compute; reflexivity. Qed.

(** ** Monotonicity *)

(** C3 (code defect).  Moving from ["good"] to the higher tier ["strong"],
    all else fixed, lowers the score from 655 to 550: ["strong"] falls
    through the chain that tests ['perfect']. *)
Theorem strong_scores_below_good :
  tier_rank "good" = Some 2 /\ tier_rank "strong" = Some 3 /\
  calculateCreditScore (with_repaymentHistory "good" snapshot_none) = 655 /\
  calculateCreditScore (with_repaymentHistory "strong" snapshot_none) = 550.
Proof. repeat split; vm_compute; reflexivity. Qed.

(** The other four factors, and the tiers below ["strong"], never lower
    the score. *)
Lemma score_monotone_hasLendingActivity ad nl age pc r tb tr b :
  calculateCreditScore (mkWalletActivity ad b nl age pc r tb tr) <=
  calculateCreditScore (mkWalletActivity ad true nl age pc r tb tr).
Proof.
  unfold_scoring. pose proof (repaymentBonus_bounds r).
  destruct b; split_tests; lia.
Qed.

Lemma score_monotone_neverLiquidated ad la age pc r tb tr b :
  calculateCreditScore (mkWalletActivity ad la b age pc r tb tr) <=
  calculateCreditScore (mkWalletActivity ad la true age pc r tb tr).
Proof.
  unfold_scoring. pose proof (repaymentBonus_bounds r).
  destruct b; split_tests; lia.
Qed.

Lemma score_monotone_accountAgeMonths ad la nl age age' pc r tb tr :
  SCORING.thresholds.accountAgeMonths <= age' ->
  calculateCreditScore (mkWalletActivity ad la nl age pc r tb tr) <=
  calculateCreditScore (mkWalletActivity ad la nl age' pc r tb tr).
Proof.
  unfold_scoring. intros H. pose proof (repaymentBonus_bounds r).
  split_tests; lia.
Qed.

Lemma score_monotone_protocolCount ad la nl age pc pc' r tb tr :
  SCORING.thresholds.minProtocols <= pc' ->
  calculateCreditScore (mkWalletActivity ad la nl age pc r tb tr) <=
  calculateCreditScore (mkWalletActivity ad la nl age pc' r tb tr).
Proof.
  unfold_scoring. intros H. pose proof (repaymentBonus_bounds r).
  split_tests; lia.
Qed.

Lemma tier_rank_cases (r : string) (n : Z) :
  tier_rank r = Some n ->
  (r = "none" /\ n = 0) \/ (r = "poor" /\ n = 0) \/
  (r = "average" /\ n = 1) \/ (r = "good" /\ n = 2) \/
  (r = "strong" /\ n = 3).
Proof.
  unfold tier_rank.
  repeat match goal with
         | |- context [?x === ?y] => destruct (String.eqb_spec x y)
         end;
    intros H; inversion H; subst; tauto.
Qed.

Lemma score_monotone_tier_below_strong
  (a : WalletActivity) (r r' : string) (n n' : Z) :
  r' <> "strong" ->
  tier_rank r = Some n -> tier_rank r' = Some n' -> n <= n' ->
  calculateCreditScore (with_repaymentHistory r a) <=
  calculateCreditScore (with_repaymentHistory r' a).
Proof.
  intros Hs' Hr Hr' Hn.
  apply tier_rank_cases in Hr. apply tier_rank_cases in Hr'.
  destruct a as [ad la nl age pc r0 tb tr]. unfold_scoring.
  rewrite !repaymentBonus_eq.
  destruct Hr as [[-> ->]|[[-> ->]|[[-> ->]|[[-> ->]|[-> ->]]]]];
    destruct Hr' as [[-> ->]|[[-> ->]|[[-> ->]|[[-> ->]|[-> ->]]]]];
    try congruence; try lia; cbn [String.eqb Ascii.eqb Bool.eqb];
    split_tests; lia.
Qed.

(** * Properties of the coordinator *)

Lemma attempts_app (t1 t2 : Trace) :
  attempts (t1 ++ t2) = attempts t1 ++ attempts t2.
Proof.
  induction t1 as [|e t1 IH]; simpl; [reflexivity|].
  destruct e as [l| | | | |]; try exact IH.
  destruct l; simpl; try exact IH. now rewrite IH.
Qed.

Ltac run_monad :=
  cbv [try_catch bind ret throw emit console_log console_error sleep
       error_message scanWalletActivity]; cbn [fst snd negb].

Ltac normalize_trace := rewrite <- ?app_assoc; cbn [app].

Section CoordinatorProperties.

Variable isAddress : string -> bool.
Variable registry_updateScore :
  Trace -> string -> Z -> Thrown + TransactionResponse.
Variable transaction_wait :
  Trace -> TransactionResponse -> Thrown + TransactionReceipt.
Variable registry_hasScore : Trace -> string -> Thrown + bool.

Abbreviation updateCreditScore :=
  (updateCreditScore isAddress registry_updateScore transaction_wait).
Abbreviation batch_loop :=
  (batch_loop isAddress registry_updateScore transaction_wait).
Abbreviation batchUpdateScores :=
  (batchUpdateScores isAddress registry_updateScore transaction_wait).
Abbreviation hasScore := (hasScore registry_hasScore).

(** C6.  An address that fails [ethers.isAddress] makes
    [updateCreditScore] throw the invalid-address error after two console
    lines and nothing else: no activity fetch, no contract call. *)
Theorem invalid_address_no_network_call (userAddress : string) (t : Trace) :
  isAddress userAddress = false ->
  let done :=
    [Console (LogProcessing userAddress);
     Console (ErrUpdatingCreditScore (Some "Invalid Ethereum address"))] in
  updateCreditScore userAddress t =
    (t ++ done, inl (ErrorObject "Invalid Ethereum address")) /\
  existsb is_network_call done = false.
Proof.
  intros Hbad done. split; [|reflexivity].
  unfold updateCreditScore. run_monad. rewrite Hbad. cbn [negb].
  subst done. now normalize_trace.
Qed.

(** C7.  [hasScore] returns the contract's boolean unchanged when the
    query resolves; when it rejects, with whatever value, [hasScore]
    prints the error and returns [false].  It never throws. *)
Theorem hasScore_never_throws (userAddress : string) (t : Trace) :
  hasScore userAddress t =
    match registry_hasScore t userAddress with
    | inr b => (t ++ [RegistryHasScore userAddress], inr b)
    | inl error =>
        (t ++ [RegistryHasScore userAddress;
               Console (ErrCheckingScoreExistence error)],
         inr false)
    end /\
  exists b : bool, snd (hasScore userAddress t) = inr b.
Proof.
  unfold hasScore, creditRegistry_hasScore. run_monad.
  destruct (registry_hasScore t userAddress) as [error|b]; cbn [snd].
  - split; [now normalize_trace | now exists false].
  - split; [reflexivity | now exists b].
Qed.

End CoordinatorProperties.

(** ** Runs on the concrete networks *)

Lemma invalid_address_no_network_call_witness :
  isAddress_0x40 "not-an-address" = false /\
  let done :=
    [Console (LogProcessing "not-an-address");
     Console (ErrUpdatingCreditScore (Some "Invalid Ethereum address"))] in
  updateCreditScore isAddress_0x40 mined_updateScore mined_wait
    "not-an-address" [] =
    ([] ++ done, inl (ErrorObject "Invalid Ethereum address")) /\
  existsb is_network_call done = false.
Proof.
  split; [reflexivity|].
  exact (invalid_address_no_network_call
           isAddress_0x40 mined_updateScore mined_wait
           "not-an-address" [] eq_refl).
Defined.

(** The defect of C1 on a whole update: for a well-formed address whose
    scan returns the all-positive ["strong"] snapshot, the score submitted
    to the registry and returned to the caller is 800. *)
Lemma update_of_strong_wallet_submits_800 :
  isAddress_0x40 address_profile0 = true /\
  repaymentHistory (generateMockData address_profile0) = "strong" /\
  updateCreditScore isAddress_0x40 mined_updateScore mined_wait
    address_profile0 [] =
    ([Console (LogProcessing address_profile0);
      ScanWalletActivity address_profile0;
      Console (LogScanning address_profile0);
      Console (LogScanComplete (generateMockData address_profile0));
      Console (LogCalculatedScore 800);
      RegistryUpdateScore address_profile0 800;
      Console (LogTransactionSent "0xfeed");
      Console LogWaitingForConfirmation;
      TxWait "0xfeed";
      Console (LogScoreUpdated 7)],
     inr (mkResult 800 "0xfeed")).
Proof. repeat split; vm_compute; reflexivity. Qed.

(** A batch whose first item is rejected by the network and whose second
    item is not an address still reaches its third item. *)
Lemma batch_run_with_failures :
  let run :=
    batchUpdateScores isAddress_0x40 rejected_updateScore mined_wait
      [address_profile0; "not-an-address"; address_profile2] [] in
  snd run = inr tt /\
  attempts (fst run) = [address_profile0; "not-an-address"; address_profile2] /\
  filter is_network_call (fst run) =
    [ScanWalletActivity address_profile0;
     RegistryUpdateScore address_profile0 800;
     ScanWalletActivity address_profile2;
     RegistryUpdateScore address_profile2 710].
Proof. repeat split; vm_compute; reflexivity. Qed.

(** A query rejected with [undefined] is answered [false]. *)
Lemma hasScore_run_rejected :
  hasScore rejected_hasScore address_profile0 [] =
    ([RegistryHasScore address_profile0;
      Console (ErrCheckingScoreExistence Nullish)],
     inr false).
Proof. reflexivity. Qed.

(** * Further properties of the oracle *)

Lemma submissions_app (t1 t2 : Trace) :
  submissions (t1 ++ t2) = submissions t1 ++ submissions t2.
Proof.
  induction t1 as [|e t1 IH]; simpl; [reflexivity|].
  destruct e; simpl; now rewrite ?IH.
Qed.

Lemma handler_lines_quiet (e : Thrown) :
  submissions (handler_lines e) = [] /\ attempts (handler_lines e) = [] /\
  filter is_pause (handler_lines e) = [] /\
  filter is_confirmation (handler_lines e) = [].
Proof. destruct e; repeat split; reflexivity. Qed.

Lemma rethrown_not_nullish (e : Thrown) : rethrown e <> Nullish.
Proof. destruct e; discriminate. Qed.

Section CoordinatorRuns.

Local Set Default Proof Using "Type".

Variable isAddress : string -> bool.
Variable registry_updateScore :
  Trace -> string -> Z -> Thrown + TransactionResponse.
Variable transaction_wait :
  Trace -> TransactionResponse -> Thrown + TransactionReceipt.

Abbreviation updateCreditScore :=
  (updateCreditScore isAddress registry_updateScore transaction_wait).
Abbreviation batch_loop :=
  (batch_loop isAddress registry_updateScore transaction_wait).
Abbreviation batchUpdateScores :=
  (batchUpdateScores isAddress registry_updateScore transaction_wait).

(** The run of [updateCreditScore], outcome by outcome. *)
Lemma updateCreditScore_cases (userAddress : string) (t : Trace) :
  let s := calculateCreditScore (generateMockData userAddress) in
  let scanned :=
    [Console (LogProcessing userAddress);
     ScanWalletActivity userAddress;
     Console (LogScanning userAddress);
     Console (LogScanComplete (generateMockData userAddress));
     Console (LogCalculatedScore s)] in
  updateCreditScore userAddress t =
    if isAddress userAddress then
      match registry_updateScore (t ++ scanned) userAddress s with
      | inl e =>
          (t ++ scanned ++ RegistryUpdateScore userAddress s :: handler_lines e,
           inl (rethrown e))
      | inr tx =>
          let sent :=
            scanned ++
            [RegistryUpdateScore userAddress s;
             Console (LogTransactionSent (tx_hash tx));
             Console LogWaitingForConfirmation] in
          match transaction_wait (t ++ sent) tx with
          | inl e =>
              (t ++ sent ++ TxWait (tx_hash tx) :: handler_lines e,
               inl (rethrown e))
          | inr receipt =>
              (t ++ sent ++
                 [TxWait (tx_hash tx);
                  Console (LogScoreUpdated (blockNumber receipt))],
               inr (mkResult s (receipt_hash receipt)))
          end
      end
    else
      (t ++ [Console (LogProcessing userAddress);
             Console (ErrUpdatingCreditScore (Some "Invalid Ethereum address"))],
       inl (ErrorObject "Invalid Ethereum address")).
Proof.
  intros s scanned. subst scanned.
  unfold updateCreditScore, creditRegistry_updateScore, tx_wait. run_monad.
  fold s.
  destruct (isAddress userAddress); cbn [negb]; normalize_trace;
    [|reflexivity].
  destruct (registry_updateScore _ _ _) as [e|tx].
  - destruct e; normalize_trace; reflexivity.
  - cbn zeta. normalize_trace.
    destruct (transaction_wait _ _) as [e|receipt].
    + destruct e; normalize_trace; reflexivity.
    + normalize_trace; reflexivity.
Qed.

(** X4.  Whenever [updateCreditScore] resolves, the address passed
    [isAddress], exactly one score was sent to the registry, for this
    address, and it is the score returned: the score of the scanned
    snapshot, within [minScore, maxScore].  The hash returned is the one of
    the receipt of a transaction that was waited for. *)
Theorem update_success_returns_submitted_score
  (userAddress : string) (t t' : Trace) (res : UpdateResult) :
  updateCreditScore userAddress t = (t', inr res) ->
  isAddress userAddress = true /\
  score res = calculateCreditScore (generateMockData userAddress) /\
  SCORING.minScore <= score res <= SCORING.maxScore /\
  exists d tx receipt t0,
    t' = t ++ d /\
    submissions d = [(userAddress, score res)] /\
    In (TxWait (tx_hash tx)) d /\
    transaction_wait t0 tx = inr receipt /\
    txHash res = receipt_hash receipt.
Proof.
  intros Hrun. rewrite updateCreditScore_cases in Hrun. cbn zeta in Hrun.
  destruct (isAddress userAddress); [|discriminate].
  destruct (registry_updateScore _ _ _) as [e|tx]; [discriminate|].
  destruct (transaction_wait _ _) as [e|receipt] eqn:Hwait; [discriminate|].
  injection Hrun as <- <-. cbn [score txHash].
  pose proof (calculateCreditScore_bounds (generateMockData userAddress)).
  unfold SCORING.minScore, SCORING.maxScore.
  repeat split; try lia.
  eexists; exists tx, receipt; eexists.
  split; [reflexivity|]. split; [reflexivity|].
  split; [cbn; tauto|]. split; [exact Hwait | reflexivity].
Qed.

(** X5.  Whatever the network answers, one call of [updateCreditScore]
    sends at most one score to the registry; it sends none for an address
    that fails [isAddress], and what it sends is the score of the scanned
    snapshot, for the address it was called with, within
    [minScore, maxScore]. *)
Theorem update_submits_at_most_once (userAddress : string) (t : Trace) :
  exists d r,
    updateCreditScore userAddress t = (t ++ d, r) /\
    (submissions d = [] \/
     isAddress userAddress = true /\
     submissions d =
       [(userAddress, calculateCreditScore (generateMockData userAddress))]) /\
    Forall (fun p => SCORING.minScore <= snd p <= SCORING.maxScore)
      (submissions d).
Proof.
  rewrite updateCreditScore_cases. cbn zeta.
  pose proof (calculateCreditScore_bounds (generateMockData userAddress)) as B.
  assert (R : SCORING.minScore <=
              calculateCreditScore (generateMockData userAddress) <=
              SCORING.maxScore)
    by (unfold SCORING.minScore, SCORING.maxScore; lia).
  destruct (isAddress userAddress).
  - destruct (registry_updateScore _ _ _) as [e|tx].
    + eexists; eexists. split; [reflexivity|].
      cbn [app submissions].
      destruct (handler_lines_quiet e) as (-> & _).
      split; [right; split; reflexivity|]. repeat constructor; apply R.
    + destruct (transaction_wait _ _) as [e|receipt].
      * eexists; eexists. split; [reflexivity|].
        cbn [app submissions].
        destruct (handler_lines_quiet e) as (-> & _).
        split; [right; split; reflexivity|]. repeat constructor; apply R.
      * eexists; eexists. split; [reflexivity|].
        cbn [app submissions].
        split; [right; split; reflexivity|]. repeat constructor; apply R.
  - eexists; eexists. split; [reflexivity|].
    split; [left; reflexivity | constructor].
Qed.

(** X6.  What [updateCreditScore] throws is never [null] or [undefined],
    and it is never made up: it is the invalid-address error, for an
    address that fails [isAddress], or else the value with which the
    submission or the wait was rejected ([null] and [undefined] replaced
    by the [TypeError] of reading their [message]). *)
Theorem update_failure_provenance
  (userAddress : string) (t t' : Trace) (error : Thrown) :
  updateCreditScore userAddress t = (t', inl error) ->
  error <> Nullish /\
  (isAddress userAddress = false /\
   error = ErrorObject "Invalid Ethereum address" \/
   isAddress userAddress = true /\
   exists e0 t0,
     error = rethrown e0 /\
     (registry_updateScore t0 userAddress
        (calculateCreditScore (generateMockData userAddress)) = inl e0 \/
      exists tx, transaction_wait t0 tx = inl e0)).
Proof.
  intros Hrun. rewrite updateCreditScore_cases in Hrun. cbn zeta in Hrun.
  destruct (isAddress userAddress).
  - destruct (registry_updateScore _ _ _) as [e|tx] eqn:Hsend.
    + injection Hrun as <- <-. split; [apply rethrown_not_nullish|].
      right. split; [reflexivity|]. exists e; eexists.
      split; [reflexivity | left; exact Hsend].
    + destruct (transaction_wait _ _) as [e|receipt] eqn:Hwait;
        [|discriminate].
      injection Hrun as <- <-. split; [apply rethrown_not_nullish|].
      right. split; [reflexivity|]. exists e; eexists.
      split; [reflexivity | right; exists tx; exact Hwait].
  - injection Hrun as <- <-. split; [discriminate|]. left. now split.
Qed.

End CoordinatorRuns.

(** ** Runs of the oracle on the concrete networks *)

Lemma update_success_returns_submitted_score_witness :
  let run :=
    updateCreditScore isAddress_0x40 mined_updateScore mined_wait
      address_profile2 [] in
  let res := mkResult 710 "0xfeed" in
  run = (fst run, inr res) /\
  isAddress_0x40 address_profile2 = true /\
  score res = calculateCreditScore (generateMockData address_profile2) /\
  SCORING.minScore <= score res <= SCORING.maxScore /\
  exists d tx receipt t0,
    fst run = [] ++ d /\
    submissions d = [(address_profile2, score res)] /\
    In (TxWait (tx_hash tx)) d /\
    mined_wait t0 tx = inr receipt /\
    txHash res = receipt_hash receipt.
Proof.
  intros run res.
  assert (H : run = (fst run, inr res)) by (vm_compute; reflexivity).
  split; [exact H|].
  exact (update_success_returns_submitted_score
           isAddress_0x40 mined_updateScore mined_wait
           address_profile2 [] (fst run) res H).
Defined.

Lemma update_failure_provenance_witness :
  let run :=
    updateCreditScore isAddress_0x40 rejected_updateScore mined_wait
      address_profile2 [] in
  let error := ErrorObject "could not send" in
  run = (fst run, inl error) /\
  error <> Nullish /\
  (isAddress_0x40 address_profile2 = false /\
   error = ErrorObject "Invalid Ethereum address" \/
   isAddress_0x40 address_profile2 = true /\
   exists e0 t0,
     error = rethrown e0 /\
     (rejected_updateScore t0 address_profile2
        (calculateCreditScore (generateMockData address_profile2)) = inl e0 \/
      exists tx, mined_wait t0 tx = inl e0)).
Proof.
  intros run error.
  assert (H : run = (fst run, inl error)) by (vm_compute; reflexivity).
  split; [exact H|].
  exact (update_failure_provenance
           isAddress_0x40 rejected_updateScore mined_wait
           address_profile2 [] (fst run) error H).
Defined.

(** * Further properties of the scanner *)

Lemma toLowerCase_ascii_idempotent (c : ascii) :
  toLowerCase_ascii (toLowerCase_ascii c) = toLowerCase_ascii c.
Proof.
  destruct c as [[] [] [] [] [] [] [] []]; vm_compute; reflexivity.
Qed.

Lemma slice_last_snoc (s : string) (c : ascii) :
  slice_last (s ++ String c "")%string = String c "".
Proof.
  induction s as [|c0 s IH]; [reflexivity|].
  cbn [String.append slice_last]. rewrite IH.
  destruct (s ++ String c "")%string eqn:E; [|reflexivity].
  destruct s; discriminate.
Qed.

Ltac split_profile :=
  unfold generateMockData;
  match goal with
  | |- context [option_map ?f ?x] =>
      generalize (option_map f x); intros profileType
  end;
  repeat match goal with
         | |- context [match ?p with _ => _ end] => is_var p; destruct p
         end.

(** X1.  For every string, the snapshot of [generateMockData] carries the
    address it was asked for and is a valid snapshot: non-negative
    counters and a declared repayment tier.  It never reports a
    liquidation, and never more repaid than borrowed. *)
Theorem generateMockData_valid (addr : string) :
  address (generateMockData addr) = addr /\
  valid_snapshot (generateMockData addr) /\
  neverLiquidated (generateMockData addr) = true /\
  0 <= totalRepaidUSD (generateMockData addr)
    <= totalBorrowedUSD (generateMockData addr).
Proof.
  split_profile; unfold valid_snapshot; cbn; repeat split; lia.
Qed.

(** X2.  For an address whose last character is an ASCII character, the
    profile depends on that character alone, without regard to its case:
    the snapshot of [s ++ c] is the snapshot of the one-letter string of
    the lower-case [c], under the address [s ++ c]. *)
Theorem generateMockData_last_character (s : string) (c : ascii) :
  (N_of_ascii c < 128)%N ->
  generateMockData (s ++ String c "")%string =
  with_address (s ++ String c "")%string
    (generateMockData (String (toLowerCase_ascii c) "")).
Proof.
  intros _.
  unfold generateMockData. rewrite slice_last_snoc.
  cbn [slice_last toLowerCase charCodeAt0].
  rewrite toLowerCase_ascii_idempotent.
  generalize (option_map (fun c0 => c0 mod 4)
                (Some (Z.of_N (N_of_ascii (toLowerCase_ascii c))))).
  intros profileType.
  repeat match goal with
         | |- context [match ?p with _ => _ end] => is_var p; destruct p
         end; reflexivity.
Qed.

Lemma generateMockData_last_character_witness :
  (N_of_ascii "E"%char < 128)%N /\
  generateMockData "0xABE" = with_address "0xABE" (generateMockData "e").
Proof.
  assert (H : (N_of_ascii "E"%char < 128)%N) by (vm_compute; reflexivity).
  split; [exact H|].
  exact (generateMockData_last_character "0xAB" "E"%char H).
Defined.

(** X3.  Every wallet the scanner describes scores between 550 and 850:
    the good profile scores 850, the average profile 710 and the default
    profile 550. *)
Theorem scanned_wallet_score (addr : string) :
  let a := generateMockData addr in
  (repaymentHistory a = "strong" /\ 550 <= calculateCreditScore a <= 850) \/
  (repaymentHistory a = "good" /\ calculateCreditScore a = 850) \/
  (repaymentHistory a = "average" /\ calculateCreditScore a = 710) \/
  (repaymentHistory a = "none" /\ calculateCreditScore a = 550).
Proof.
  cbv zeta. split_profile; vm_compute; intuition congruence.
Qed.

(** * Properties of the configuration and of the server *)

Lemma oracle_events_app (h1 h2 : AppTrace) :
  oracle_events (h1 ++ h2) = oracle_events h1 ++ oracle_events h2.
Proof.
  induction h1 as [|e h1 IH]; simpl; [reflexivity|].
  destruct e; simpl; now rewrite ?IH.
Qed.

Lemma oracle_events_map (d : Trace) : oracle_events (map OracleEvent d) = d.
Proof. induction d as [|e d IH]; simpl; now rewrite ?IH. Qed.

Lemma started_batches_app (h1 h2 : AppTrace) :
  started_batches (h1 ++ h2) = started_batches h1 ++ started_batches h2.
Proof.
  induction h1 as [|e h1 IH]; simpl; [reflexivity|].
  destruct e; simpl; now rewrite ?IH.
Qed.

Lemma started_batches_map (d : Trace) :
  started_batches (map OracleEvent d) = [].
Proof. induction d as [|e d IH]; simpl; now rewrite ?IH. Qed.

(** A method of the oracle that extends its trace extends the trace of
    the server by the same events. *)
Lemma call_oracle_run {A : Type} (m : M A) (h : AppTrace) (d : Trace)
  (r : Thrown + A) :
  m (oracle_events h) = (oracle_events h ++ d, r) ->
  call_oracle m h = (h ++ map OracleEvent d, r).
Proof.
  intros Hm. unfold call_oracle. rewrite Hm.
  rewrite skipn_app, skipn_all, Nat.sub_diag. reflexivity.
Qed.

Lemma env_or_default_nonempty (v : option string) (d : string) :
  d <> "" -> env_or v d <> "".
Proof.
  intros Hd. unfold env_or. destruct v as [s|]; [|exact Hd].
  destruct (String.eqb_spec s ""); [exact Hd | assumption].
Qed.

Ltac run_app :=
  cbv [app_try_catch app_bind app_ret app_throw app_emit app_console
       app_error_message respond not_initialized].

Ltac normalize_app_trace := rewrite <- ?app_assoc; cbn [app].

(** Closes [~ In e l] on a concrete list that does not hold [e]. *)
Ltac not_in_list :=
  cbn [In]; intros Hin;
  repeat (destruct Hin as [Hin|Hin]; [discriminate|]); exact Hin.

(** X8.  [validateConfig] throws exactly when [ORACLE_PRIVATE_KEY] is
    absent or empty, before printing anything, and its message names that
    variable alone: [RPC_URL] has a default and is never reported missing.
    Otherwise it prints its four lines and returns. *)
Theorem validateConfig_requires_private_key (env : Env) (h : AppTrace) :
  validateConfig env h =
    match env "ORACLE_PRIVATE_KEY" with
    | Some (String c key) =>
        (h ++ [AppConsole LogConfigurationValidated;
               AppConsole (LogNetwork "sepolia");
               AppConsole
                 (LogCreditRegistry
                    (string_or (CONTRACTS.creditRegistry env)
                       "Not deployed yet"));
               AppConsole
                 (LogLendingPool
                    (string_or (CONTRACTS.lendingPool env)
                       "Not deployed yet"))],
         inr tt)
    | _ =>
        (h,
         inl (ErrorObject
                "Missing required environment variables: ORACLE_PRIVATE_KEY"))
    end.
Proof.
  unfold validateConfig.
  assert (Hrpc : (NETWORK.rpcUrl env === "") = false).
  { apply String.eqb_neq. apply env_or_default_nonempty. discriminate. }
  cbn [filter snd]. rewrite Hrpc.
  unfold ORACLE.privateKey, env_or.
  destruct (env "ORACLE_PRIVATE_KEY") as [[|c key]|]; cbn; try reflexivity.
  run_app. now normalize_app_trace.
Qed.

Section ServerProperties.

Local Set Default Proof Using "Type".

Variable isAddress : string -> bool.
Variable registry_updateScore :
  Trace -> string -> Z -> Thrown + TransactionResponse.
Variable transaction_wait :
  Trace -> TransactionResponse -> Thrown + TransactionReceipt.
Variable registry_hasScore : Trace -> string -> Thrown + bool.
Variable registry_oracle : AppTrace -> Thrown + string.
Variable provider_getBalance : AppTrace -> string -> Thrown + Z.
Variable formatEther : Z -> string.
Variable wallet_address : string.
Variable oracle_ready : bool.

Abbreviation updateCreditScore :=
  (updateCreditScore isAddress registry_updateScore transaction_wait).
Abbreviation batchUpdateScores :=
  (batchUpdateScores isAddress registry_updateScore transaction_wait).
Abbreviation hasScore := (hasScore registry_hasScore).
Abbreviation verifyOracleAuthorization :=
  (verifyOracleAuthorization registry_oracle wallet_address).
Abbreviation get_oracle_status :=
  (get_oracle_status registry_oracle provider_getBalance formatEther
     wallet_address oracle_ready).
Abbreviation post_score :=
  (post_score isAddress registry_updateScore transaction_wait
     registry_hasScore oracle_ready).
Abbreviation get_score_exists :=
  (get_score_exists registry_hasScore oracle_ready).
Abbreviation post_score_batch := (post_score_batch oracle_ready).
Abbreviation post_trigger :=
  (post_trigger isAddress registry_updateScore transaction_wait oracle_ready).

(** The run of [hasScore]: one query, and a boolean. *)
Lemma hasScore_run (userAddress : string) (t : Trace) :
  exists d,
    hasScore userAddress t =
      (t ++ d,
       inr match registry_hasScore t userAddress with
           | inr b => b
           | inl _ => false
           end) /\
    filter is_network_call d = [RegistryHasScore userAddress] /\
    submissions d = [].
Proof.
  unfold hasScore, creditRegistry_hasScore. run_monad.
  destruct (registry_hasScore t userAddress) as [error|b].
  - eexists. split; [normalize_trace; reflexivity|]. now split.
  - eexists. split; [reflexivity|]. now split.
Qed.

(** The run of [verifyOracleAuthorization]. *)
Lemma verifyOracleAuthorization_run (h : AppTrace) :
  exists d,
    verifyOracleAuthorization h =
      (h ++ RegistryOracle :: d,
       inr match registry_oracle h with
           | inr authorizedOracle =>
               toLowerCase authorizedOracle === toLowerCase wallet_address
           | inl _ => false
           end) /\
    ~ In RegistryOracle d.
Proof.
  unfold verifyOracleAuthorization, creditRegistry_oracle. run_app.
  destruct (registry_oracle h) as [error|authorizedOracle].
  - eexists. split; [normalize_app_trace; reflexivity|].
    not_in_list.
  - destruct (toLowerCase authorizedOracle === toLowerCase wallet_address);
      (eexists; split; [normalize_app_trace; reflexivity|]);
      not_in_list.
Qed.

(** X9.  [verifyOracleAuthorization] makes one query and never throws.
    It answers [true] exactly when the query resolves to an address that
    equals the wallet's address once both are put in lower case, and
    [false] when the query is rejected. *)
Theorem verifyOracleAuthorization_never_throws (h : AppTrace) :
  exists d,
    verifyOracleAuthorization h =
      (h ++ RegistryOracle :: d,
       inr match registry_oracle h with
           | inr authorizedOracle =>
               toLowerCase authorizedOracle === toLowerCase wallet_address
           | inl _ => false
           end) /\
    oracle_events d = [] /\ ~ In RegistryOracle d.
Proof.
  unfold verifyOracleAuthorization, creditRegistry_oracle. run_app.
  destruct (registry_oracle h) as [error|authorizedOracle].
  - eexists. split; [normalize_app_trace; reflexivity|].
    split; [reflexivity|]. not_in_list.
  - destruct (toLowerCase authorizedOracle === toLowerCase wallet_address);
      (eexists; split; [normalize_app_trace; reflexivity|]);
      (split; [reflexivity|]); not_in_list.
Qed.

(** X10.  [GET /api/score/:address/exists] never answers 500 and never
    throws: once the oracle is set it answers 200, with the registry's
    boolean when the query resolves and with [false] when the query is
    rejected. *)
Theorem get_score_exists_never_fails (address : string) (h : AppTrace) :
  exists d,
    get_score_exists address h =
      (h ++ d,
       inr (if oracle_ready then
              mkResponse 200
                (ExistsJson address
                   match registry_hasScore (oracle_events h) address with
                   | inr b => b
                   | inl _ => false
                   end)
            else mkResponse 503 (ErrorJson (Some "Oracle not initialized")))).
Proof.
  unfold get_score_exists. unfold app_try_catch, app_bind.
  destruct oracle_ready; cbn [negb].
  - destruct (hasScore_run address (oracle_events h)) as (d & Hrun & _).
    rewrite (call_oracle_run _ _ _ _ Hrun). run_app.
    eexists. reflexivity.
  - run_app. exists []. now rewrite app_nil_r.
Qed.


(** X12.  A batch of more than ten addresses is refused with status 400
    and the message of the limit; nothing is started and nothing is
    printed. *)
Theorem post_score_batch_over_limit (l : list string) (h : AppTrace) :
  oracle_ready = true ->
  (10 < List.length l)%nat ->
  post_score_batch (ArrayOf l) h =
    (h, inr (mkResponse 400
               (ErrorJson (Some "Maximum 10 addresses per batch")))).
Proof.
  intros Hready Hlen. unfold post_score_batch. unfold app_try_catch.
  rewrite Hready. cbn [negb Array_isArray array_elements orb].
  destruct (Nat.eqb_spec (List.length l) 0) as [H0|H0]; [lia|].
  destruct (Nat.ltb_spec 10 (List.length l)) as [H10|H10]; [|lia].
  reflexivity.
Qed.

(** X13.  [POST /api/trigger] with no address, or an empty one, is
    refused with status 400 before any method of the oracle is called. *)
Theorem post_trigger_requires_address (address : option string) (h : AppTrace) :
  oracle_ready = true ->
  falsy address = true ->
  post_trigger address h =
    (h, inr (mkResponse 400 (ErrorJson (Some "Address required in body")))).
Proof.
  intros Hready Hfalsy. unfold post_trigger. unfold app_try_catch.
  rewrite Hready, Hfalsy. reflexivity.
Qed.

(** The run of [updateCreditScore], summarised for its callers. *)
Lemma updateCreditScore_summary (userAddress : string) (t : Trace) :
  exists d r,
    updateCreditScore userAddress t = (t ++ d, r) /\
    match r with
    | inr res =>
        submissions d = [(userAddress, score res)] /\
        SCORING.minScore <= score res <= SCORING.maxScore
    | inl e => e <> Nullish
    end /\
    (isAddress userAddress = false ->
     filter is_network_call d = [] /\
     r = inl (ErrorObject "Invalid Ethereum address")).
Proof.
  rewrite (updateCreditScore_cases isAddress registry_updateScore
             transaction_wait).
  cbn zeta.
  pose proof (calculateCreditScore_bounds (generateMockData userAddress)) as B.
  destruct (isAddress userAddress).
  - destruct (registry_updateScore _ _ _) as [e|tx].
    + eexists; eexists. split; [reflexivity|].
      split; [apply rethrown_not_nullish | discriminate].
    + destruct (transaction_wait _ _) as [e|receipt].
      * eexists; eexists. split; [reflexivity|].
        split; [apply rethrown_not_nullish | discriminate].
      * eexists; eexists. split; [reflexivity|].
        split; [|discriminate]. cbn [score app submissions].
        unfold SCORING.minScore, SCORING.maxScore. split; [reflexivity|lia].
  - eexists; eexists. split; [reflexivity|].
    split; [discriminate|]. intros _. now split.
Qed.


(** X15.  For an address that fails [isAddress], the score route answers
    500, not a 4xx status, with the message of the invalid-address error;
    the only remote call it has made by then is the [hasScore] query,
    which comes before the validation. *)
Theorem post_score_invalid_address (address : string) (h : AppTrace) :
  oracle_ready = true ->
  isAddress address = false ->
  exists d,
    post_score address h =
      (h ++ d,
       inr (mkResponse 500 (FailureJson (Some "Invalid Ethereum address")))) /\
    filter is_network_call (oracle_events d) = [RegistryHasScore address].
Proof.
  intros Hready Hbad. unfold post_score. unfold app_try_catch.
  rewrite Hready. cbn [negb]. run_app.
  destruct (hasScore_run address
              (oracle_events (h ++ [AppConsole (LogReceivedRequest address)])))
    as (d1 & H1 & Hn1 & _).
  rewrite (call_oracle_run _ _ _ _ H1).
  match type of H1 with
  | _ = (_, inr ?b) => generalize b; intros exists_
  end.
  destruct exists_.
  - destruct (updateCreditScore_summary address
                (oracle_events
                   (((h ++ [AppConsole (LogReceivedRequest address)])
                       ++ map OracleEvent d1)
                      ++ [AppConsole LogScoreAlreadyExists])))
      as (d2 & r & H2 & _ & Hinv).
    destruct (Hinv Hbad) as [Hn2 ->].
    rewrite (call_oracle_run _ _ _ _ H2).
    eexists. split; [normalize_app_trace; reflexivity|].
    cbn [oracle_events]. rewrite oracle_events_app. cbn [oracle_events].
    rewrite oracle_events_app. cbn [oracle_events].
    rewrite !oracle_events_map, !filter_app, Hn1, Hn2. reflexivity.
  - destruct (updateCreditScore_summary address
                (oracle_events
                   ((h ++ [AppConsole (LogReceivedRequest address)])
                      ++ map OracleEvent d1)))
      as (d2 & r & H2 & _ & Hinv).
    destruct (Hinv Hbad) as [Hn2 ->].
    rewrite (call_oracle_run _ _ _ _ H2).
    eexists. split; [normalize_app_trace; reflexivity|].
    cbn [oracle_events]. rewrite oracle_events_app.
    rewrite oracle_events_app. cbn [oracle_events].
    rewrite !oracle_events_map, !filter_app, Hn1, Hn2. reflexivity.
Qed.


(** X18.  [GET /api/oracle/status] asks for the balance first.  When that
    query is rejected the authorization query is never made and the answer
    is 500 (a rejection with [null] or [undefined] makes the handler
    itself throw).  When it resolves the answer is always 200: a rejected
    authorization query only shows as [isAuthorized: false]. *)
Theorem get_oracle_status_outcome (h : AppTrace) :
  oracle_ready = true ->
  exists d r,
    get_oracle_status h = (h ++ ProviderGetBalance wallet_address :: d, r) /\
    match provider_getBalance h wallet_address with
    | inr wei =>
        In RegistryOracle d /\
        exists isAuthorized,
          r = inr (mkResponse 200
                     (StatusJson (formatEther wei ++ " ETH")%string
                        isAuthorized)) /\
          (isAuthorized = true ->
           exists authorizedOracle,
             registry_oracle (h ++ [ProviderGetBalance wallet_address]) =
               inr authorizedOracle /\
             toLowerCase authorizedOracle = toLowerCase wallet_address)
    | inl (ErrorObject m) =>
        ~ In RegistryOracle d /\
        r = inr (mkResponse 500 (ErrorJson (Some m)))
    | inl OtherValue =>
        ~ In RegistryOracle d /\ r = inr (mkResponse 500 (ErrorJson None))
    | inl Nullish =>
        ~ In RegistryOracle d /\ r = inl TypeError_message
    end.
Proof.
  intros Hready. unfold get_oracle_status. unfold app_try_catch.
  rewrite Hready. cbn [negb].
  unfold getOracleBalance, provider_getBalance_of. run_app.
  destruct (provider_getBalance h wallet_address) as [e|wei].
  - destruct e; eexists; eexists;
      (split; [normalize_app_trace; reflexivity|]);
      (split; [not_in_list | reflexivity]).
  - destruct (verifyOracleAuthorization_run
                (h ++ [ProviderGetBalance wallet_address]))
      as (d1 & Hv & Hin).
    rewrite Hv.
    eexists; eexists. split; [normalize_app_trace; reflexivity|].
    split; [cbn; left; reflexivity|]. eexists. split; [reflexivity|].
    intros Hauth. destruct (registry_oracle _) as [e|authorizedOracle];
      [discriminate|].
    exists authorizedOracle. split; [reflexivity|].
    now apply String.eqb_eq.
Qed.



End ServerProperties.

(** ** Runs of the server on the concrete networks *)

Lemma post_score_batch_over_limit_witness :
  (10 < List.length eleven_addresses)%nat /\
  post_score_batch true (ArrayOf eleven_addresses) [] =
    ([], inr (mkResponse 400
                (ErrorJson (Some "Maximum 10 addresses per batch")))).
Proof.
  assert (H : (10 < List.length eleven_addresses)%nat) by (cbn; lia).
  split; [exact H|].
  exact (post_score_batch_over_limit true eleven_addresses [] eq_refl H).
Defined.

Lemma post_trigger_requires_address_witness :
  falsy (Some "") = true /\
  post_trigger isAddress_0x40 mined_updateScore mined_wait true (Some "") [] =
    ([], inr (mkResponse 400 (ErrorJson (Some "Address required in body")))).
Proof.
  split; [reflexivity|].
  exact (post_trigger_requires_address
           isAddress_0x40 mined_updateScore mined_wait true (Some "") []
           eq_refl eq_refl).
Defined.

Lemma post_score_invalid_address_witness :
  isAddress_0x40 "batch" = false /\
  exists d,
    post_score isAddress_0x40 mined_updateScore mined_wait scored_hasScore
      true "batch" [] =
      ([] ++ d,
       inr (mkResponse 500 (FailureJson (Some "Invalid Ethereum address")))) /\
    filter is_network_call (oracle_events d) = [RegistryHasScore "batch"].
Proof.
  split; [reflexivity|].
  exact (post_score_invalid_address
           isAddress_0x40 mined_updateScore mined_wait scored_hasScore
           true "batch" [] eq_refl eq_refl).
Defined.

Lemma get_oracle_status_outcome_witness :
  exists d r,
    get_oracle_status resolved_oracle rejected_getBalance formatEther_whole
      address_profile0 true [] =
      ([] ++ ProviderGetBalance address_profile0 :: d, r) /\
    ~ In RegistryOracle d /\
    r = inr (mkResponse 500 (ErrorJson (Some "network down"))).
Proof.
  exact (get_oracle_status_outcome
           resolved_oracle rejected_getBalance formatEther_whole
           address_profile0 true [] eq_refl).
Defined.



(** A status request on a network whose balance query resolves while the
    authorization query is rejected. *)
Lemma get_oracle_status_run_unauthorized :
  get_oracle_status (fun _ => inl OtherValue) (fun _ _ => inr 0)
    formatEther_whole address_profile0 true [] =
    ([ProviderGetBalance address_profile0; RegistryOracle;
      AppConsole (ErrVerifyingAuthorization OtherValue)],
     inr (mkResponse 200 (StatusJson "0.0 ETH" false))).
Proof. reflexivity. Qed.

(** * Properties of the routing *)

Lemma batch_path_is_an_address_path (path : list string) :
  path_matches [Literal "api"; Literal "score"; Literal "batch"] path = true ->
  path_matches [Literal "api"; Literal "score"; Param "address"] path
    = true.
Proof.
  destruct path as [|s1 [|s2 [|s3 [|s4 path]]]]; cbn [path_matches];
    rewrite ?andb_false_r; try discriminate.
  intros H. apply andb_prop in H as [H1 H].
  apply andb_prop in H as [H2 H]. apply andb_prop in H as [H3 _].
  rewrite H1, H2. cbn [andb segment_matches].
  destruct s3; [discriminate H3 | reflexivity].
Qed.

(** X19.  The batch route is registered after the route with the address
    parameter, and every path it matches is matched by that route first,
    [batch] being taken for the address: no request is ever dispatched to
    the batch handler, and [POST /api/score/batch] is handled as a score
    update for the address [batch]. *)
Theorem batch_route_is_shadowed (m : Method) (path : list string) :
  dispatch m path <> Some ScoreBatch /\
  dispatch POST ["api"; "score"; "batch"] = Some ScoreByAddress.
Proof.
  split; [|reflexivity].
  unfold dispatch, routes. cbn [dispatch_in].
  destruct m; cbn [method_eqb andb].
  - repeat match goal with
           | |- context [path_matches ?p path] =>
               destruct (path_matches p path)
           end; discriminate.
  - destruct (path_matches [Literal "api"; Literal "score";
                            Param "address"] path) eqn:Haddr;
      [discriminate|].
    destruct (path_matches [Literal "api"; Literal "score";
                            Literal "batch"] path) eqn:Hbatch.
    + apply batch_path_is_an_address_path in Hbatch. congruence.
    + repeat match goal with
             | |- context [path_matches ?p path] =>
                 destruct (path_matches p path)
             end; discriminate.
Qed.

(** * The batch, on networks that may never answer *)

Lemma reported_failures_app (t1 t2 : Trace) :
  reported_failures (t1 ++ t2) = reported_failures t1 ++ reported_failures t2.
Proof.
  induction t1 as [|e t1 IH]; simpl; [reflexivity|].
  destruct e as [l| | | | |]; try exact IH.
  destruct l; simpl; try exact IH. now rewrite IH.
Qed.

Lemma scores_due_cons (isAddress : string -> bool) (a : string)
  (l : list string) :
  scores_due isAddress (a :: l) =
  scores_due isAddress [a] ++ scores_due isAddress l.
Proof.
  unfold scores_due. cbn [filter]. destruct (isAddress a); reflexivity.
Qed.

Ltac run_pending :=
  cbv [Pending.try_catch Pending.bind Pending.ret Pending.throw
       Pending.settled try_catch bind ret throw emit console_log
       console_error sleep error_message scanWalletActivity];
  cbn [fst snd negb].

Section PendingRuns.

Local Set Default Proof Using "Type".

Variable isAddress : string -> bool.
Variable registry_updateScore :
  Trace -> string -> Z -> option (Thrown + TransactionResponse).
Variable transaction_wait :
  Trace -> TransactionResponse -> option (Thrown + TransactionReceipt).

(** The run of [updateCreditScore], outcome by outcome. *)
Lemma pending_updateCreditScore_cases (userAddress : string) (t : Trace) :
  let s := calculateCreditScore (generateMockData userAddress) in
  let scanned :=
    [Console (LogProcessing userAddress);
     ScanWalletActivity userAddress;
     Console (LogScanning userAddress);
     Console (LogScanComplete (generateMockData userAddress));
     Console (LogCalculatedScore s)] in
  Pending.updateCreditScore isAddress registry_updateScore transaction_wait
    userAddress t =
    if isAddress userAddress then
      match registry_updateScore (t ++ scanned) userAddress s with
      | None => (t ++ scanned ++ [RegistryUpdateScore userAddress s], None)
      | Some (inl e) =>
          (t ++ scanned ++ RegistryUpdateScore userAddress s :: handler_lines e,
           Some (inl (rethrown e)))
      | Some (inr tx) =>
          let sent :=
            scanned ++
            [RegistryUpdateScore userAddress s;
             Console (LogTransactionSent (tx_hash tx));
             Console LogWaitingForConfirmation] in
          match transaction_wait (t ++ sent) tx with
          | None => (t ++ sent ++ [TxWait (tx_hash tx)], None)
          | Some (inl e) =>
              (t ++ sent ++ TxWait (tx_hash tx) :: handler_lines e,
               Some (inl (rethrown e)))
          | Some (inr receipt) =>
              (t ++ sent ++
                 [TxWait (tx_hash tx);
                  Console (LogScoreUpdated (blockNumber receipt))],
               Some (inr (mkResult s (receipt_hash receipt))))
          end
      end
    else
      (t ++ [Console (LogProcessing userAddress);
             Console (ErrUpdatingCreditScore (Some "Invalid Ethereum address"))],
       Some (inl (ErrorObject "Invalid Ethereum address"))).
Proof.
  intros s scanned. subst scanned.
  unfold Pending.updateCreditScore, Pending.creditRegistry_updateScore,
    Pending.tx_wait.
  run_pending. fold s.
  destruct (isAddress userAddress); cbn [negb]; normalize_trace;
    [|reflexivity].
  destruct (registry_updateScore _ _ _) as [[e|tx]|].
  - destruct e; normalize_trace; reflexivity.
  - cbn zeta. normalize_trace.
    destruct (transaction_wait _ _) as [[e|receipt]|].
    + destruct e; normalize_trace; reflexivity.
    + normalize_trace; reflexivity.
    + normalize_trace; reflexivity.
  - normalize_trace; reflexivity.
Qed.

Lemma scores_due_single (address : string) :
  scores_due isAddress [address] =
  if isAddress address
  then [(address, calculateCreditScore (generateMockData address))]
  else [].
Proof. unfold scores_due. cbn [filter]. now destruct (isAddress address). Qed.

(** One turn of the loop.  It attempts this address, sends the score due
    to it, and ends either normally, after the pause of a confirmed update
    or the printed line of a caught failure, or suspended at a call that
    never settles. *)
Lemma pending_batch_item (address : string) (t : Trace) :
  exists d r,
    Pending.try_catch
      (Pending.bind
         (Pending.updateCreditScore isAddress registry_updateScore
            transaction_wait address)
         (fun _ => Pending.settled (sleep 2000)))
      (fun error =>
         Pending.bind (Pending.settled (error_message error))
           (fun message =>
              Pending.settled
                (console_error (ErrFailedToUpdate address message)))) t
    = (t ++ d, r) /\
    attempts d = [address] /\
    submissions d = scores_due isAddress [address] /\
    filter is_pause d =
      repeat (SetTimeout 2000) (List.length (filter is_confirmation d)) /\
    (r = Some (inr tt) /\
     (List.length (filter is_pause d) + List.length (reported_failures d)
      = 1)%nat \/
     r = None /\ some_call_pends registry_updateScore transaction_wait).
Proof.
  rewrite scores_due_single.
  unfold Pending.try_catch at 1. unfold Pending.bind at 1.
  rewrite pending_updateCreditScore_cases. cbn zeta.
  destruct (isAddress address).
  - destruct (registry_updateScore _ _ _) as [[e|tx]|] eqn:Hsend.
    + destruct e; run_pending; cbn [rethrown handler_lines TypeError_message];
        (eexists; eexists; split; [normalize_trace; reflexivity|]);
        repeat (split; [reflexivity|]); left; split; reflexivity.
    + destruct (transaction_wait _ _) as [[e|receipt]|] eqn:Hwait.
      * destruct e; run_pending;
          cbn [rethrown handler_lines TypeError_message];
          (eexists; eexists; split; [normalize_trace; reflexivity|]);
          repeat (split; [reflexivity|]); left; split; reflexivity.
      * run_pending.
        eexists; eexists; split; [normalize_trace; reflexivity|].
        repeat (split; [reflexivity|]). left; split; reflexivity.
      * run_pending.
        eexists; eexists; split; [normalize_trace; reflexivity|].
        repeat (split; [reflexivity|]). right. split; [reflexivity|].
        right. eexists; eexists; exact Hwait.
    + run_pending.
      eexists; eexists; split; [normalize_trace; reflexivity|].
      repeat (split; [reflexivity|]). right. split; [reflexivity|].
      left. eexists; eexists; eexists; exact Hsend.
  - run_pending.
    eexists; eexists; split; [normalize_trace; reflexivity|].
    repeat (split; [reflexivity|]). left; split; reflexivity.
Qed.

(** The loop.  It has reached the first [k] addresses: it attempted each
    of them, in order, and sent the scores due to them.  It ends normally
    with the whole list reached, every item closed by a pause or by a
    printed failure, or it is suspended at a call that never settles. *)
Lemma pending_batch_loop (addresses : list string) :
  forall t : Trace,
  exists d r k,
    Pending.batch_loop isAddress registry_updateScore transaction_wait
      addresses t = (t ++ d, r) /\
    (k <= List.length addresses)%nat /\
    attempts d = firstn k addresses /\
    submissions d = scores_due isAddress (firstn k addresses) /\
    filter is_pause d =
      repeat (SetTimeout 2000) (List.length (filter is_confirmation d)) /\
    (r = Some (inr tt) /\ k = List.length addresses /\
     (List.length (filter is_pause d) + List.length (reported_failures d)
      = List.length addresses)%nat \/
     r = None /\ some_call_pends registry_updateScore transaction_wait).
Proof.
  induction addresses as [|address rest IH]; intros t.
  - exists [], (Some (inr tt)), 0%nat. cbn [Pending.batch_loop].
    unfold Pending.ret. rewrite app_nil_r.
    repeat (split; [reflexivity|]). left. repeat split.
  - destruct (pending_batch_item address t)
      as (d1 & r1 & Hitem & Hatt1 & Hsub1 & Hpause1 & Hend1).
    cbn [Pending.batch_loop]. unfold Pending.bind at 1. rewrite Hitem.
    destruct Hend1 as [[-> Hclosed1] | [-> Hpends]].
    + destruct (IH (t ++ d1))
        as (d2 & r2 & k & Hrest & Hk & Hatt2 & Hsub2 & Hpause2 & Hend2).
      rewrite Hrest.
      exists (d1 ++ d2), r2, (S k).
      split; [now rewrite app_assoc|].
      split; [cbn [List.length]; lia|].
      split; [rewrite attempts_app, Hatt1, Hatt2; reflexivity|].
      split.
      { cbn [firstn]. rewrite submissions_app, Hsub1, Hsub2.
        symmetry. apply scores_due_cons. }
      split.
      { rewrite !filter_app, length_app, repeat_app, Hpause1, Hpause2.
        reflexivity. }
      destruct Hend2 as [(-> & -> & Hclosed2) | [-> Hpends]].
      * left. split; [reflexivity|]. split; [reflexivity|].
        rewrite !filter_app, reported_failures_app, !length_app.
        cbn [List.length]. lia.
      * right. now split.
    + exists d1, None, 1%nat.
      split; [reflexivity|].
      split; [cbn [List.length]; lia|].
      split; [exact Hatt1|]. split; [exact Hsub1|]. split; [exact Hpause1|].
      right. now split.
Qed.

(** The whole batch: the loop between its first and its last line. *)
Lemma pending_batchUpdateScores (addresses : list string) (t : Trace) :
  exists d r k,
    Pending.batchUpdateScores isAddress registry_updateScore transaction_wait
      addresses t = (t ++ d, r) /\
    (k <= List.length addresses)%nat /\
    attempts d = firstn k addresses /\
    submissions d = scores_due isAddress (firstn k addresses) /\
    filter is_pause d =
      repeat (SetTimeout 2000) (List.length (filter is_confirmation d)) /\
    (r = Some (inr tt) /\ k = List.length addresses /\
     (List.length (filter is_pause d) + List.length (reported_failures d)
      = List.length addresses)%nat \/
     r = None /\ some_call_pends registry_updateScore transaction_wait).
Proof.
  destruct (pending_batch_loop addresses
              (t ++ [Console (LogBatchUpdating (List.length addresses))]))
    as (d & r & k & Hloop & Hk & Hatt & Hsub & Hpause & Hend).
  unfold Pending.batchUpdateScores. unfold Pending.bind at 1.
  unfold Pending.settled at 1, console_log at 1, emit at 1.
  unfold Pending.bind at 1. rewrite Hloop.
  destruct Hend as [(-> & Hkall & Hclosed) | [-> Hpends]].
  - unfold Pending.settled, console_log, emit.
    exists (Console (LogBatchUpdating (List.length addresses)) :: d
              ++ [Console LogBatchComplete]), (Some (inr tt)), k.
    split; [now normalize_trace|]. split; [exact Hk|].
    cbn [attempts submissions filter is_pause is_confirmation
         reported_failures].
    rewrite attempts_app, submissions_app, !filter_app,
      reported_failures_app.
    cbn [attempts submissions filter is_pause is_confirmation
         reported_failures].
    rewrite !app_nil_r.
    split; [exact Hatt|]. split; [exact Hsub|]. split; [exact Hpause|].
    left. now repeat split.
  - exists (Console (LogBatchUpdating (List.length addresses)) :: d), None, k.
    split; [now normalize_trace|]. split; [exact Hk|].
    cbn [attempts submissions filter is_pause is_confirmation].
    split; [exact Hatt|]. split; [exact Hsub|]. split; [exact Hpause|].
    right. now split.
Qed.


(** X7.  Whatever the network does (resolve, reject or never answer), the
    batch never throws, and at every end of its run it has reached some
    first [k] addresses of its list: it has attempted exactly those, in
    order, and the scores it has sent are exactly the scores due to them,
    one for each that passes [isAddress], in order.  When it returns,
    [k] is the whole list.  Every pause is the 2000 ms one, and there are
    as many as confirmed updates. *)
Theorem batch_sends_the_scores_due (addresses : list string) (t : Trace) :
  exists d r k,
    Pending.batchUpdateScores isAddress registry_updateScore transaction_wait
      addresses t = (t ++ d, r) /\
    (k <= List.length addresses)%nat /\
    attempts d = firstn k addresses /\
    submissions d = scores_due isAddress (firstn k addresses) /\
    filter is_pause d =
      repeat (SetTimeout 2000) (List.length (filter is_confirmation d)) /\
    (r = Some (inr tt) /\ k = List.length addresses \/
     r = None /\ some_call_pends registry_updateScore transaction_wait).
Proof.
  destruct (pending_batchUpdateScores addresses t)
    as (d & r & k & Hrun & Hk & Hatt & Hsub & Hpause & Hend).
  exists d, r, k. repeat (split; [assumption|]).
  destruct Hend as [(Hr & Hkall & _) | Hpends]; [left | right]; auto.
Qed.

Lemma length_scores_due (l : list string) :
  (List.length (scores_due isAddress l) <= List.length l)%nat.
Proof. unfold scores_due. rewrite length_map. apply filter_length_le. Qed.

Variable oracle_ready : bool.

(** X17.  A batch started by [POST /api/score/batch] has at least one and
    at most ten addresses.  Whatever the network does, its run sends the
    scores due to the addresses it has reached, one for each that passes
    [isAddress], in the order of the list: at most ten scores. *)
Theorem started_batch_is_bounded
  (addresses : AddressesField) (h : AppTrace) (l : list string) (t : Trace) :
  started_batches (fst (post_score_batch oracle_ready addresses h)) =
    started_batches h ++ [l] ->
  (1 <= List.length l <= 10)%nat /\
  exists d r k,
    Pending.batchUpdateScores isAddress registry_updateScore transaction_wait
      l t = (t ++ d, r) /\
    (k <= List.length l)%nat /\
    submissions d = scores_due isAddress (firstn k l) /\
    (List.length (submissions d) <= 10)%nat.
Proof.
  intros Hstarted.
  assert (Hlen : (1 <= List.length l <= 10)%nat).
  { revert Hstarted. unfold post_score_batch. unfold app_try_catch.
    assert (Hnone : started_batches h = started_batches h ++ [l] -> False).
    { intros E. apply (f_equal (@List.length _)) in E.
      rewrite length_app in E. cbn in E. lia. }
    destruct oracle_ready; cbn [negb];
      [|run_app; cbn [fst]; intros E; destruct (Hnone E)].
    destruct addresses as [|l0]; cbn [Array_isArray array_elements negb orb];
      [run_app; cbn [fst]; intros E; destruct (Hnone E)|].
    destruct (Nat.eqb_spec (List.length l0) 0);
      [run_app; cbn [fst]; intros E; destruct (Hnone E)|].
    destruct (Nat.ltb_spec 10 (List.length l0));
      [run_app; cbn [fst]; intros E; destruct (Hnone E)|].
    run_app. cbn [fst]. rewrite !started_batches_app. cbn [started_batches].
    rewrite app_nil_r. intros E. apply app_inv_head in E.
    injection E as ->. lia. }
  split; [exact Hlen|].
  destruct (pending_batchUpdateScores l t)
    as (d & r & k & Hrun & Hk & _ & Hsub & _).
  exists d, r, k. repeat (split; [assumption|]).
  rewrite Hsub.
  pose proof (length_scores_due (firstn k l)) as H1.
  pose proof (firstn_le_length k l) as H2. lia.
Qed.

End PendingRuns.

(** On a network whose calls all settle, the runs of this module are the
    runs of the section [CreditOracle]. *)
Lemma settled_updateCreditScore
  (isAddress : string -> bool)
  (registry_updateScore : Trace -> string -> Z -> Thrown + TransactionResponse)
  (transaction_wait : Trace -> TransactionResponse -> Thrown + TransactionReceipt)
  (userAddress : string) (t : Trace) :
  Pending.updateCreditScore isAddress
    (fun t0 user s => Some (registry_updateScore t0 user s))
    (fun t0 tx => Some (transaction_wait t0 tx)) userAddress t =
  Pending.settled
    (updateCreditScore isAddress registry_updateScore transaction_wait
       userAddress) t.
Proof.
  rewrite pending_updateCreditScore_cases. unfold Pending.settled.
  rewrite updateCreditScore_cases. cbn zeta.
  destruct (isAddress userAddress); [|reflexivity].
  destruct (registry_updateScore _ _ _) as [e|tx]; [reflexivity|].
  destruct (transaction_wait _ _) as [e|receipt]; reflexivity.
Qed.

Lemma settled_batchUpdateScores
  (isAddress : string -> bool)
  (registry_updateScore : Trace -> string -> Z -> Thrown + TransactionResponse)
  (transaction_wait : Trace -> TransactionResponse -> Thrown + TransactionReceipt)
  (addresses : list string) (t : Trace) :
  Pending.batchUpdateScores isAddress
    (fun t0 user s => Some (registry_updateScore t0 user s))
    (fun t0 tx => Some (transaction_wait t0 tx)) addresses t =
  Pending.settled
    (batchUpdateScores isAddress registry_updateScore transaction_wait
       addresses) t.
Proof.
  assert (Hloop : forall l t1,
    Pending.batch_loop isAddress
      (fun t0 user s => Some (registry_updateScore t0 user s))
      (fun t0 tx => Some (transaction_wait t0 tx)) l t1 =
    Pending.settled
      (batch_loop isAddress registry_updateScore transaction_wait l) t1).
  { induction l as [|address rest IH]; intros t1; [reflexivity|].
    cbn [Pending.batch_loop batch_loop].
    unfold Pending.bind at 1, Pending.try_catch at 1, Pending.bind at 1.
    rewrite settled_updateCreditScore. run_pending.
    destruct (updateCreditScore _ _ _ address t1) as [t2 [e|res]].
    - destruct e; try reflexivity; rewrite IH; reflexivity.
    - rewrite IH. reflexivity. }
  unfold Pending.batchUpdateScores, batchUpdateScores.
  unfold Pending.bind at 1, Pending.settled at 1, console_log at 1,
    emit at 1.
  unfold Pending.bind at 1. rewrite Hloop. run_pending.
  destruct (batch_loop isAddress registry_updateScore transaction_wait
              addresses _) as [t2 [e|u]]; reflexivity.
Qed.

(** ** Runs of the batch on the concrete networks *)



Lemma started_batch_is_bounded_witness :
  let l := [address_profile2; "not-an-address"] in
  started_batches (fst (post_score_batch true (ArrayOf l) [])) =
    started_batches [] ++ [l] /\
  (1 <= List.length l <= 10)%nat /\
  exists d r k,
    Pending.batchUpdateScores isAddress_0x40 sent_updateScore never_mined_wait
      l [] = ([] ++ d, r) /\
    (k <= List.length l)%nat /\
    submissions d = scores_due isAddress_0x40 (firstn k l) /\
    (List.length (submissions d) <= 10)%nat.
Proof.
  intros l. split; [reflexivity|].
  exact (started_batch_is_bounded
           isAddress_0x40 sent_updateScore never_mined_wait
           true (ArrayOf l) [] l [] eq_refl).
Defined.
